(** * Monaco integration glue of Theia: command contribution and keybinding contexts

    A shallow embedding of
    - the command contribution of the Monaco package (namespace
      [MonacoCommands] and class [MonacoEditorCommandHandlers]), and
    - [monaco-keybinding-contexts.ts] (classes
      [MonacoStrictEditorTextFocusContext] and
      [MonacoNativeTextInputFocusContext]).

    The embedded editor (Monaco) and the host framework are external to these
    two files.  Their registries are inputs of the model, and every call the
    code makes on an external collaborator (the host command registry, the
    quick-open service, a text model, a Monaco command) is recorded, in
    order, in a trace of [Effect]s. *)

From stdpp Require Import gmap strings list fin_maps pretty.
From Stdlib Require Import ZArith.

Open Scope string_scope.
Open Scope Z_scope.
Open Scope list_scope.

(** ** JavaScript [Map<string, V>]

    A JS [Map] iterates in insertion order, and [set] on a key that is
    already present replaces the value but keeps the key's position.  Both
    matter here: [ACTIONS.values()] fixes the order of registration. *)

Module JSMap.
Section JSMap.
Context {V : Type}.

Definition t := list (string * V).

Definition empty : t := [].

Fixpoint get (k : string) (m : t) : option V :=
  match m with
  | [] => None
  | (k', v) :: m' => if String.eqb k k' then Some v else get k m'
  end.

Definition has (k : string) (m : t) : bool :=
  match get k m with Some _ => true | None => false end.

Fixpoint set (k : string) (v : V) (m : t) : t :=
  match m with
  | [] => [(k, v)]
  | (k', v') :: m' =>
      if String.eqb k k' then (k, v) :: m' else (k', v') :: set k v m'
  end.

Definition keys (m : t) : list string := map fst m.
Definition values (m : t) : list V := map snd m.
End JSMap.
Arguments t : clear implicits.
End JSMap.

(** ** Values and objects of the embedded editor *)

(** Arguments handed to a command are arbitrary JS values. *)
#[warnings="-register-all"]
Inductive Value :=
| VUndefined
| VNull
| VBool (b : bool)
| VNum (n : Z)
| VStr (s : string)
| VArr (elems : list Value).

(** [MonacoIcon = { dark?, light? } | ThemeIcon]: always an object, hence
    truthy. *)
Inductive MonacoIcon :=
| UriIcon (dark light : option string)
| ThemeIcon (icon_id : string).

(** [MonacoCommand = Command & { icon? }], restricted to the fields this
    code ever writes. *)
Record MonacoCommand := {
  cmd_id : string;
  cmd_label : option string;
  cmd_icon : option MonacoIcon
}.

Record CommandItem := { item_id : string; item_icon : option MonacoIcon }.
(** A menu item is an [IMenuItem] (with a [command]) or an [ISubmenuItem]
    (without one). *)
Record MenuItem := { menu_command : option CommandItem }.
Record EditorAction := { action_id : string; action_label : string }.
Record KeybindingItem := { keybinding_command : string }.

(** Monaco's own functions are opaque to this code; they are named, never
    unfolded. *)
Inductive ICommandHandler := HandlerFn (name : string).
Record ContextKeyExpr := { key : option string }.
Record ICommand := {
  command_id : string;
  command_handler : ICommandHandler;
  command_when : option ContextKeyExpr
}.
Record EditorCommand := { editor_command_id : string }.

(** The registries of the embedded editor that the code reads. *)
Record Monaco := {
  (** [MenuRegistry.getMenuItems(menuId)] *)
  getMenuItems : Z -> list MenuItem;
  (** [EditorExtensionsRegistry.getEditorActions()] *)
  getEditorActions : list EditorAction;
  (** [EditorExtensionsRegistry.getEditorCommand(id)] *)
  editorCommands : gmap string EditorCommand;
  (** [KeybindingsRegistry.getDefaultKeybindings()] *)
  getDefaultKeybindings : list KeybindingItem;
  (** [CommandsRegistry.getCommands()] *)
  getCommands : JSMap.t ICommand
}.

Definition getEditorCommand (monaco : Monaco) (id : string) : option EditorCommand :=
  editorCommands monaco !! id.

Definition getCommand (monaco : Monaco) (id : string) : option ICommand :=
  JSMap.get id (getCommands monaco).

(** ** Text models and editors *)

Inductive EndOfLineSequence := LF | CRLF.

Record TextModelResolvedOptions := { tabSize : Z; insertSpaces : bool }.

Record ITextModel := {
  model_id : string;
  getOptions : TextModelResolvedOptions
}.

Record MonacoEditorModel := { textEditorModel : option ITextModel }.

Record FocusOptions := { strict : bool }.

Record MonacoEditor := {
  document : option MonacoEditorModel;
  isFocused : FocusOptions -> bool
}.

(** ** The trace of calls on external collaborators *)

Record Error := { message : string }.

Inductive QuickOpenMode := PREVIEW | OPEN | OPEN_IN_BACKGROUND.

Definition QuickOpenMode_eqb (a b : QuickOpenMode) : bool :=
  match a, b with
  | PREVIEW, PREVIEW | OPEN, OPEN | OPEN_IN_BACKGROUND, OPEN_IN_BACKGROUND => true
  | _, _ => false
  end.

Record QuickOpenOptions := {
  placeholder : string;
  fuzzyMatchLabel : bool;
  selectIndex : option (string -> Z)
}.

(** What [isEnabled] of a handler reads when it is called. *)
Record FocusState := {
  (** [editorService.getActiveCodeEditor()] is defined *)
  activeCodeEditor : bool;
  (** [editorService.hasFocusedCodeEditor()] *)
  hasFocusedCodeEditor : bool;
  (** [NativeTextInputFocusContext.is()] *)
  nativeTextInputFocus : bool
}.

#[warnings="-register-all"]
Inductive Effect :=
(** [commandRegistry.registerCommand(command, handler)] *)
| RegisterCommand (command : MonacoCommand) (handler : CommandHandler)
(** [quickOpenService.open({ onType: (lookFor, acceptor) => acceptor(items) }, options)] *)
| QuickOpen (onType : string -> list QuickOpenItem) (options : QuickOpenOptions)
(** [model.pushEOL(eol)] *)
| PushEOL (model : ITextModel) (eol : EndOfLineSequence)
(** [model.updateOptions({ tabSize, insertSpaces })] *)
| UpdateOptions (model : ITextModel) (newTabSize : Z) (newInsertSpaces : bool)
(** [editorCommand.runCommand(serviceAccessor, args)] *)
| RunCommand (c : EditorCommand) (args : list Value)
(** [handler(serviceAccessor, args)]: the arguments as ONE array *)
| CallHandler (h : ICommandHandler) (args : list Value)
(** [instantiationService.invokeFunction(handler, ...args)]: the arguments
    spread *)
| InvokeFunction (h : ICommandHandler) (args : list Value)
with CommandHandler :=
| mkCommandHandler
    (execute : list Value -> list Effect * (Error + unit))
    (isEnabled : option (FocusState -> bool))
with QuickOpenItem :=
| mkQuickOpenItem
    (label : string)
    (run : QuickOpenMode -> list Effect * bool).

Definition execute (h : CommandHandler) : list Value -> list Effect * (Error + unit) :=
  match h with mkCommandHandler e _ => e end.
Definition isEnabled (h : CommandHandler) : option (FocusState -> bool) :=
  match h with mkCommandHandler _ e => e end.
Definition label (i : QuickOpenItem) : string :=
  match i with mkQuickOpenItem l _ => l end.
Definition run (i : QuickOpenItem) : QuickOpenMode -> list Effect * bool :=
  match i with mkQuickOpenItem _ r => r end.

(** A computation performs calls (kept even when it then throws) and either
    throws or returns. *)
Definition M (A : Type) : Type := list Effect * (Error + A).

Definition ret {A} (a : A) : M A := ([], inr a).
Definition throw {A} (e : Error) : M A := ([], inl e).
Definition perform (e : Effect) : M unit := ([e], inr tt).
Definition bind {A B} (c : M A) (k : A -> M B) : M B :=
  match c with
  | (t, inl e) => (t, inl e)
  | (t, inr a) => let '(t', r) := k a in (t ++ t', r)
  end.

Notation "'let*' x ':=' c 'in' k" := (bind c (fun x => k))
  (at level 10, x name, c at level 100, k at level 200).
Notation "'do*' c 'in' k" := (bind c (fun _ => k))
  (at level 10, c at level 100, k at level 200).

(** [for (const x of xs) body(x)] *)
Fixpoint for_of {A} (xs : list A) (body : A -> M unit) : M unit :=
  match xs with
  | [] => ret tt
  | x :: xs' => do* body x in for_of xs' body
  end.

Definition trace {A} (c : M A) : list Effect := fst c.
Definition outcome {A} (c : M A) : Error + A := snd c.

(** ** JavaScript truthiness of strings and numbers *)

Definition truthy_string (s : string) : bool := negb (String.eqb s "").
Definition truthy_number (n : Z) : bool := negb (n =? 0).

(** [n.toString()] and [`${n}`] for an integer *)
Definition toString (n : Z) : string := pretty n.

(** The string literal ['\r\n']: carriage return, line feed. *)
Definition CR_LF : string :=
  String (Ascii.ascii_of_nat 13) (String (Ascii.ascii_of_nat 10) EmptyString).

(** [s.startsWith(p)] *)
Definition startsWith (s p : string) : bool := String.prefix p s.

(** ** Namespace [MonacoCommands] *)

Module MonacoCommands.

Definition FIND := "actions.find".
Definition REPLACE := "editor.action.startFindReplaceAction".
Definition GO_TO_DEFINITION := "editor.action.revealDefinition".

Definition EXCLUDE_ACTIONS : gset string :=
  {[ "editor.action.quickCommand";
     "editor.action.clipboardCutAction";
     "editor.action.clipboardCopyAction";
     "editor.action.clipboardPasteAction" ]}.

Definition excluded (id : string) : bool := bool_decide (id ∈ EXCLUDE_ACTIONS).
Arguments excluded : simpl never.

(** Body of the loop over [MenuRegistry.getMenuItems(7)]. *)
Definition icons_step (icons : gmap string MonacoIcon) (menuItem : MenuItem)
  : gmap string MonacoIcon :=
  match menu_command menuItem with
  | Some commandItem =>
      match item_icon commandItem with
      | Some icon => <[item_id commandItem := icon]> icons
      | None => icons
      end
  | None => icons
  end.

Definition icons (monaco : Monaco) : gmap string MonacoIcon :=
  foldl icons_step ∅ (getMenuItems monaco 7).

(** Body of the loop over [getEditorActions()]. *)
Definition action_step (icons : gmap string MonacoIcon)
    (ACTIONS : JSMap.t MonacoCommand) (action : EditorAction)
  : JSMap.t MonacoCommand :=
  let id := action_id action in
  if negb (excluded id) then
    let label := action_label action in
    let icon := icons !! id in
    JSMap.set id {| cmd_id := id; cmd_label := Some label; cmd_icon := icon |} ACTIONS
  else ACTIONS.

(** Body of the loop over [getDefaultKeybindings()]. *)
Definition keybinding_step (ACTIONS : JSMap.t MonacoCommand) (keybinding : KeybindingItem)
  : JSMap.t MonacoCommand :=
  let id := keybinding_command keybinding in
  if negb (JSMap.has id ACTIONS) && negb (excluded id) then
    JSMap.set id {| cmd_id := id; cmd_label := None; cmd_icon := None |} ACTIONS
  else ACTIONS.

(** [ACTIONS] as the first population pass leaves it. *)
Definition ACTIONS_from_editor_actions (monaco : Monaco) : JSMap.t MonacoCommand :=
  foldl (action_step (icons monaco)) JSMap.empty (getEditorActions monaco).

(** [ACTIONS] once the namespace is initialised. *)
Definition ACTIONS (monaco : Monaco) : JSMap.t MonacoCommand :=
  foldl keybinding_step (ACTIONS_from_editor_actions monaco)
        (getDefaultKeybindings monaco).

(** The descriptor [{ id }] of the second pass. *)
Definition bare (id : string) : MonacoCommand :=
  {| cmd_id := id; cmd_label := None; cmd_icon := None |}.

(** Keys are unique and every descriptor sits under its own id. *)
Definition well_keyed (A : JSMap.t MonacoCommand) : Prop :=
  NoDup (JSMap.keys A) /\ forall k c, (k, c) ∈ A -> cmd_id c = k.

End MonacoCommands.

(** ** Class [MonacoEditorCommandHandlers] *)

Module MonacoEditorCommandHandlers.

Definition registerCommand (command : MonacoCommand) (handler : CommandHandler) : M unit :=
  perform (RegisterCommand command handler).

Definition editorIsActiveOrFocused (s : FocusState) : bool :=
  activeCodeEditor s || hasFocusedCodeEditor s.

Definition isNativeTextInputAware (command : ICommand) : bool :=
  match command_when command with
  | Some when => bool_decide (key when = Some "textInputFocus")
  | None => false
  end.

Definition newEditorCommandHandler (monaco : Monaco) (id : string) : M CommandHandler :=
  match getEditorCommand monaco id with
  | Some editorCommand =>
      ret (mkCommandHandler
             (fun args => ([RunCommand editorCommand args], inr tt))
             (Some editorIsActiveOrFocused))
  | None =>
      match getCommand monaco id with
      | Some command =>
          ret (mkCommandHandler
                 (fun args => ([CallHandler (command_handler command) args], inr tt))
                 (Some (fun s =>
                    if editorIsActiveOrFocused s then true
                    else if isNativeTextInputAware command && nativeTextInputFocus s then true
                    else false)))
      | None => throw {| message := "Could not find monaco command with ID: " +:+ id |}
      end
  end.

(** Body of the loop of [registerBuiltinMonacoActions]: the handler is
    built (and may throw) before [registerCommand] is called. *)
Definition registerAction (monaco : Monaco) (action : MonacoCommand) : M unit :=
  let* handler := newEditorCommandHandler monaco (cmd_id action) in
  registerCommand action handler.

Definition registerBuiltinMonacoActions (monaco : Monaco)
    (ACTIONS : JSMap.t MonacoCommand) : M unit :=
  for_of (JSMap.values ACTIONS) (registerAction monaco).

(** The handler registered for an internal command: it looks the command
    up again in the map it captured and hands the handler found, with the
    arguments spread, to the instantiation service. *)
Definition internalCommandHandler (monacoCommands : JSMap.t ICommand)
    (command : string) : CommandHandler :=
  mkCommandHandler
    (fun args =>
       match JSMap.get command monacoCommands with
       | Some c => ([InvokeFunction (command_handler c) args], inr tt)
       | None => ([], inl {| message := "TypeError: Cannot read property 'handler' of undefined" |})
       end)
    None.

Definition registerInternalLanguageServiceCommands (monaco : Monaco) : M unit :=
  let monacoCommands := getCommands monaco in
  for_of (JSMap.keys monacoCommands) (fun command =>
    if startsWith command "_execute" then
      registerCommand {| cmd_id := command; cmd_label := None; cmd_icon := None |}
                      (internalCommandHandler monacoCommands command)
    else ret tt).

(** [editor.document && editor.document.textEditorModel] *)
Definition modelOf (editor : MonacoEditor) : option ITextModel :=
  match document editor with
  | Some doc => textEditorModel doc
  | None => None
  end.

Definition setEol (editor : MonacoEditor) (lineEnding : string) : list Effect :=
  match modelOf editor with
  | Some model =>
      if String.eqb lineEnding "CRLF" || String.eqb lineEnding CR_LF
      then [PushEOL model CRLF]
      else [PushEOL model LF]
  | None => []
  end.

Definition configureEol (editor : MonacoEditor) : list Effect :=
  let options := map (fun lineEnding =>
    mkQuickOpenItem lineEnding (fun mode =>
      if QuickOpenMode_eqb mode OPEN then (setEol editor lineEnding, true)
      else ([], false))) ["LF"; "CRLF"] in
  [QuickOpen (fun _ => options)
     {| placeholder := "Select End of Line Sequence";
        fuzzyMatchLabel := true;
        selectIndex := None |}].

(** [Array.from(Array(8), (_, x) => x + 1)] *)
Definition sizes : list Z := map (fun x => Z.of_nat x + 1) (seq 0 8).

Definition configureTabSize (editor : MonacoEditor) (useSpaces : bool) : list Effect :=
  match modelOf editor with
  | Some model =>
      let tabSize := tabSize (getOptions model) in
      let tabSizeOptions := map (fun size =>
        mkQuickOpenItem
          (if size =? tabSize then toString size +:+ "   Configured Tab Size"
           else toString size)
          (fun mode =>
             if negb (QuickOpenMode_eqb mode OPEN) then ([], false)
             else ([UpdateOptions model
                      (if truthy_number size then size else tabSize)
                      useSpaces], true))) sizes in
      [QuickOpen (fun _ => tabSizeOptions)
         {| placeholder := "Select Tab Size for Current File";
            fuzzyMatchLabel := true;
            selectIndex := Some (fun lookFor =>
              if negb (truthy_string lookFor) || String.eqb lookFor ""
              then tabSize - 1 else 0) |}]
  | None => []
  end.

Definition configureIndentation (editor : MonacoEditor) : list Effect :=
  let options := map (fun useSpaces : bool =>
    mkQuickOpenItem
      ("Indent Using " +:+ (if useSpaces then "Spaces" else "Tabs"))
      (fun mode =>
         if QuickOpenMode_eqb mode OPEN then (configureTabSize editor useSpaces, false)
         else ([], false))) [true; false] in
  [QuickOpen (fun _ => options)
     {| placeholder := "Select Action";
        fuzzyMatchLabel := true;
        selectIndex := None |}].

End MonacoEditorCommandHandlers.

(** ** Keybinding contexts ([monaco-keybinding-contexts.ts]) *)

Module KeybindingContexts.

(** [widget.editor] is a [MonacoEditor] or some other [TextEditor];
    [editor instanceof MonacoEditor] tells them apart. *)
Inductive TextEditor :=
| IsMonacoEditor (e : MonacoEditor)
| OtherTextEditor (name : string).

Record EditorWidget := { editor : TextEditor }.

(** A DOM element with its chain of parents.  The chain of a DOM tree is
    finite, which is what makes the [while (parent)] loop end. *)
#[warnings="-register-all"]
Inductive Element :=
| mkElement (id : string) (parentElement : option Element).

Definition id (e : Element) : string :=
  match e with mkElement i _ => i end.
Definition parentElement (e : Element) : option Element :=
  match e with mkElement _ p => p end.

Record Document := { activeElement : option Element }.

Section MonacoStrictEditorTextFocusContext.
(** [StrictEditorTextFocusContext.canHandle], the base class's method. *)
Variable super_canHandle : EditorWidget -> bool.

Definition canHandle (widget : EditorWidget) : bool :=
  match editor widget with
  | IsMonacoEditor editor => isFocused editor {| strict := true |}
  | OtherTextEditor _ => super_canHandle widget
  end.
End MonacoStrictEditorTextFocusContext.

Section MonacoNativeTextInputFocusContext.
(** [EditorWidgetFactory.ID], a constant of the editor package. *)
Variable EditorWidgetFactory_ID : string.
(** [NativeTextInputFocusContext.isEnabled], the base class's method. *)
Variable super_isEnabled : Document -> bool.

(** [id && id.startsWith(EditorWidgetFactory.ID)] *)
Definition isEditorId (id : string) : bool :=
  truthy_string id && startsWith id EditorWidgetFactory_ID.

(** The [while (parent)] loop, entered with a defined [parent]. *)
Fixpoint searchFrom (parent : Element) : bool :=
  match parent with
  | mkElement id next =>
      if isEditorId id then true
      else match next with
           | Some parent' => searchFrom parent'
           | None => false
           end
  end.

Definition activeElementIsInEditor (document : Document) : bool :=
  let parent :=
    match activeElement document with
    | Some activeElement => parentElement activeElement
    | None => None
    end in
  match parent with
  | Some parent => searchFrom parent
  | None => false
  end.

Definition isEnabled (document : Document) : bool :=
  super_isEnabled document && negb (activeElementIsInEditor document).
End MonacoNativeTextInputFocusContext.

(** The proper ancestors of an element, nearest first. *)
Fixpoint ancestors (e : Element) : list Element :=
  match e with
  | mkElement _ (Some p) => p :: ancestors p
  | mkElement _ None => []
  end.

(** The elements the loop of [activeElementIsInEditor] can visit. *)
Definition activeAncestors (document : Document) : list Element :=
  match activeElement document with
  | Some e => ancestors e
  | None => []
  end.

(** Induction along the chain of parents. *)
Fixpoint Element_chain_ind (P : Element -> Prop)
    (Hroot : forall i, P (mkElement i None))
    (Hchild : forall i p, P p -> P (mkElement i (Some p)))
    (e : Element) : P e :=
  match e with
  | mkElement i None => Hroot i
  | mkElement i (Some p) => Hchild i p (Element_chain_ind P Hroot Hchild p)
  end.

End KeybindingContexts.

(** ** Reading a trace *)

(** The commands handed to the host registry, in order. *)
Definition registeredCommands (t : list Effect) : list MonacoCommand :=
  omap (fun e => match e with RegisterCommand c _ => Some c | _ => None end) t.

(** An id is known to the embedded editor when one of the two lookups of
    [newEditorCommandHandler] finds it. *)
Definition known (monaco : Monaco) (id : string) : bool :=
  match getEditorCommand monaco id, getCommand monaco id with
  | None, None => false
  | _, _ => true
  end.

Definition notFound (id : string) : Error :=
  {| message := "Could not find monaco command with ID: " +:+ id |}.

(** ** Sample registries and editors

    Small concrete states of the embedded editor, used to run the
    definitions. *)

Module Samples.

Definition action (id label : string) : EditorAction :=
  {| action_id := id; action_label := label |}.
Definition keybinding (id : string) : KeybindingItem :=
  {| keybinding_command := id |}.
Definition command (id : string) : string * ICommand :=
  (id, {| command_id := id; command_handler := HandlerFn id; command_when := None |}).

(** One titled menu entry with an icon, two editor actions (one of them
    excluded), an editor command, and core commands for everything that
    has a keybinding. *)
Definition monaco : Monaco := {|
  getMenuItems := fun menuId =>
    if menuId =? 7 then
      [ {| menu_command := Some {| item_id := "editor.action.rename";
                                   item_icon := Some (ThemeIcon "edit") |} |};
        {| menu_command := None |} ]
    else [];
  getEditorActions :=
    [ action "editor.action.rename" "Rename Symbol";
      action "editor.action.quickCommand" "Command Palette" ];
  editorCommands := {[ "cursorUndo" := {| editor_command_id := "cursorUndo" |} ]};
  getDefaultKeybindings :=
    [ keybinding "editor.action.rename"; keybinding "undo";
      keybinding "cursorUndo"; keybinding "undo";
      keybinding "editor.action.clipboardCopyAction" ];
  getCommands :=
    [ command "editor.action.rename"; command "undo";
      command "_executeDefinitionProvider"; command "editor.action.quickCommand";
      command "_executeHoverProvider" ]
|}.

(** A default keybinding whose command no registry knows. *)
Definition monaco_dangling : Monaco := {|
  getMenuItems := fun _ => [];
  getEditorActions := [];
  editorCommands := ∅;
  getDefaultKeybindings := [ keybinding "workbench.action.files.save" ];
  getCommands := []
|}.

Definition model (size : Z) : ITextModel :=
  {| model_id := "$model1";
     getOptions := {| tabSize := size; insertSpaces := true |} |}.

Definition editor (size : Z) : MonacoEditor :=
  {| document := Some {| textEditorModel := Some (model size) |};
     isFocused := fun _ => true |}.

(** An editor whose [document] is undefined. *)
Definition editor_without_document : MonacoEditor :=
  {| document := None; isFocused := fun _ => false |}.

(** An editor whose document has no [textEditorModel]. *)
Definition editor_without_model : MonacoEditor :=
  {| document := Some {| textEditorModel := None |}; isFocused := fun _ => false |}.

(** A text area inside an editor widget:
    [body > div#code-editor-opener:file:///a.ts > div > textarea]. *)
Definition textarea_in_editor : KeybindingContexts.Element :=
  KeybindingContexts.mkElement ""
    (Some (KeybindingContexts.mkElement ""
       (Some (KeybindingContexts.mkElement "code-editor-opener:file:///a.ts"
          (Some (KeybindingContexts.mkElement "" None)))))).

(** An input of the shell: [body > div#theia-top-panel > input]. *)
Definition input_in_shell : KeybindingContexts.Element :=
  KeybindingContexts.mkElement ""
    (Some (KeybindingContexts.mkElement "theia-top-panel"
       (Some (KeybindingContexts.mkElement "" None)))).

End Samples.

(** ** The rest of the command contribution: custom handlers and
    [registerCommands] *)

Module CommandContribution.
Import MonacoCommands MonacoEditorCommandHandlers.

(** The ids [EditorCommands.*.id] of the host's editor commands, constants of
    the editor package. *)
Record EditorCommandIds := {
  SHOW_REFERENCES : string;
  CONFIG_INDENTATION : string;
  CONFIG_EOL : string;
  INDENT_USING_SPACES : string;
  INDENT_USING_TABS : string
}.

(** Language-protocol values, and the Monaco values the injected
    [ProtocolToMonacoConverter] makes of them. *)
Record Position := { line : Z; character : Z }.
Record Range := { range_start : Position; range_end : Position }.
Record Location := { location_uri : string; location_range : Range }.

Inductive Uri := Uri_parse (value : string).
Record IPosition := { lineNumber : Z; column : Z }.
Record IRange := { startPosition : IPosition; endPosition : IPosition }.
Record MonacoLocation := { monaco_uri : Uri; monaco_range : IRange }.

Record ProtocolToMonacoConverter := {
  asPosition : Position -> IPosition;
  asLocation : Location -> MonacoLocation
}.

(** [editor.commandService.executeCommand(id, uri, position, locations)] *)
Inductive CommandServiceCall :=
| ExecuteCommand (editor : MonacoEditor) (commandId : string)
    (uri : Uri) (position : IPosition) (locations : list MonacoLocation).

(** A [MonacoEditorCommandHandler]: [execute] gets the editor and, for the
    reference handler only, three more arguments. *)
Inductive MonacoEditorCommandHandler :=
| ShowReferenceHandler
    (execute : MonacoEditor -> string -> Position -> list Location -> list CommandServiceCall)
| EditorHandler (execute : MonacoEditor -> list Effect).

Definition newShowReferenceHandler (p2m : ProtocolToMonacoConverter)
  : MonacoEditorCommandHandler :=
  ShowReferenceHandler (fun editor uri position locations =>
    [ExecuteCommand editor "editor.action.showReferences"
       (Uri_parse uri) (asPosition p2m position) (map (asLocation p2m) locations)]).

Definition newConfigIndentationHandler : MonacoEditorCommandHandler :=
  EditorHandler (fun editor => configureIndentation editor).

Definition newConfigEolHandler : MonacoEditorCommandHandler :=
  EditorHandler (fun editor => configureEol editor).

Definition newConfigTabSizeHandler (useSpaces : bool) : MonacoEditorCommandHandler :=
  EditorHandler (fun editor => configureTabSize editor useSpaces).

(** What [registerCommands] does, in order: calls of
    [monacoCommandRegistry.registerHandler(id, handler)] and the calls its two
    other steps make. *)
Inductive Registration :=
| RegisterHandler (id : string) (handler : MonacoEditorCommandHandler)
| HostCall (e : Effect).

Definition registerEditorCommandHandlers (ids : EditorCommandIds)
    (p2m : ProtocolToMonacoConverter) : list Registration :=
  [ RegisterHandler (SHOW_REFERENCES ids) (newShowReferenceHandler p2m);
    RegisterHandler (CONFIG_INDENTATION ids) newConfigIndentationHandler;
    RegisterHandler (CONFIG_EOL ids) newConfigEolHandler;
    RegisterHandler (INDENT_USING_SPACES ids) (newConfigTabSizeHandler true);
    RegisterHandler (INDENT_USING_TABS ids) (newConfigTabSizeHandler false) ].

(** [registerCommands]: the three steps in sequence; an error of the second
    step ends the method before the third. *)
Definition registerCommands (ids : EditorCommandIds) (p2m : ProtocolToMonacoConverter)
    (monaco : Monaco) (ACTIONS : JSMap.t MonacoCommand)
  : list Registration * (Error + unit) :=
  let custom := registerEditorCommandHandlers ids p2m in
  match registerBuiltinMonacoActions monaco ACTIONS with
  | (builtin, inl e) => (custom ++ map HostCall builtin, inl e)
  | (builtin, inr _) =>
      let '(internal, r) := registerInternalLanguageServiceCommands monaco in
      (custom ++ map HostCall builtin ++ map HostCall internal, r)
  end.

(** The calls on the host side of a run, and the ids handed to
    [monacoCommandRegistry.registerHandler]. *)
Definition hostCalls (t : list Registration) : list Effect :=
  omap (fun r => match r with HostCall e => Some e | _ => None end) t.

Definition handlerIds (t : list Registration) : list string :=
  omap (fun r => match r with RegisterHandler id _ => Some id | _ => None end) t.

End CommandContribution.

(** The ids of a list, each at the place of its first occurrence. *)
Definition first_occurrences (l : list string) : list string :=
  reverse (remove_dups (reverse l)).

(** The command of a menu item carries this id and this icon. *)
Definition menu_icon (id : string) (icon : MonacoIcon) (menuItem : MenuItem) : Prop :=
  exists commandItem, menu_command menuItem = Some commandItem /\
    item_id commandItem = id /\ item_icon commandItem = Some icon.

(** The command of a menu item carries this id and some icon. *)
Definition menu_has_icon (id : string) (menuItem : MenuItem) : Prop :=
  exists icon, menu_icon id icon menuItem.

Module MoreSamples.

Definition ids : CommandContribution.EditorCommandIds := {|
  CommandContribution.SHOW_REFERENCES := "textEditor.commands.showReferences";
  CommandContribution.CONFIG_INDENTATION := "textEditor.commands.configIndentation";
  CommandContribution.CONFIG_EOL := "textEditor.commands.configEol";
  CommandContribution.INDENT_USING_SPACES := "textEditor.commands.indentUsingSpaces";
  CommandContribution.INDENT_USING_TABS := "textEditor.commands.indentUsingTabs"
|}.

(** Zero-based protocol positions become one-based editor positions. *)
Definition p2m : CommandContribution.ProtocolToMonacoConverter :=
  let pos (p : CommandContribution.Position) :=
    {| CommandContribution.lineNumber := CommandContribution.line p + 1;
       CommandContribution.column := CommandContribution.character p + 1 |} in
  {| CommandContribution.asPosition := pos;
     CommandContribution.asLocation := fun l =>
       {| CommandContribution.monaco_uri :=
            CommandContribution.Uri_parse (CommandContribution.location_uri l);
          CommandContribution.monaco_range :=
            {| CommandContribution.startPosition :=
                 pos (CommandContribution.range_start (CommandContribution.location_range l));
               CommandContribution.endPosition :=
                 pos (CommandContribution.range_end (CommandContribution.location_range l)) |} |} |}.

(** Two entries of the title menu for one command, with different icons, and
    two editor actions that share an id. *)
Definition monaco_duplicates : Monaco := {|
  getMenuItems := fun menuId =>
    if menuId =? 7 then
      [ {| menu_command := Some {| item_id := "editor.action.format";
                                   item_icon := Some (ThemeIcon "old") |} |};
        {| menu_command := Some {| item_id := "editor.action.format";
                                   item_icon := Some (ThemeIcon "new") |} |};
        {| menu_command := Some {| item_id := "editor.action.format";
                                   item_icon := None |} |} ]
    else [];
  getEditorActions :=
    [ Samples.action "editor.action.format" "Format";
      Samples.action "editor.action.rename" "Rename";
      Samples.action "editor.action.format" "Format Document" ];
  editorCommands := ∅;
  getDefaultKeybindings :=
    [ Samples.keybinding "undo"; Samples.keybinding "editor.action.rename";
      Samples.keybinding "undo" ];
  getCommands :=
    [ Samples.command "editor.action.format"; Samples.command "editor.action.rename";
      Samples.command "undo" ]
|}.

(** An id known to both registries, and a core command that is aware of
    native text inputs. *)
Definition monaco_overlap : Monaco := {|
  getMenuItems := fun _ => [];
  getEditorActions := [];
  editorCommands := {[ "undo" := {| editor_command_id := "undo" |} ]};
  getDefaultKeybindings := [];
  getCommands :=
    [ Samples.command "undo";
      ("editor.action.selectAll",
       {| command_id := "editor.action.selectAll";
          command_handler := HandlerFn "selectAll";
          command_when := Some {| key := Some "textInputFocus" |} |}) ]
|}.

(** The first entry is known, the second is not, the third is. *)
Definition monaco_partly_known : Monaco := {|
  getMenuItems := fun _ => [];
  getEditorActions := [ Samples.action "editor.action.rename" "Rename" ];
  editorCommands := ∅;
  getDefaultKeybindings :=
    [ Samples.keybinding "workbench.action.files.save"; Samples.keybinding "undo" ];
  getCommands :=
    [ Samples.command "editor.action.rename"; Samples.command "undo";
      Samples.command "_executeHoverProvider" ]
|}.

End MoreSamples.

(** * Properties *)

(** ** Facts about [JSMap] *)

Module JSMapFacts.
Import JSMap.
Section JSMapFacts.
Context {V : Type}.
Implicit Types (m : JSMap.t V) (k : string) (v : V).

Lemma has_true_iff k m : has k m = true <-> k ∈ keys m.
Proof.
  unfold has, keys. induction m as [|[k' v] m IH]; simpl.
  - split; [discriminate | intros H; inversion H].
  - destruct (String.eqb_spec k k') as [->|Hne].
    + split; [intros _; left | reflexivity].
    + rewrite IH. split.
      * intros H. now right.
      * intros H. apply elem_of_cons in H as [H|H]; [congruence | exact H].
Qed.

Lemma has_false_iff k m : has k m = false <-> k ∉ keys m.
Proof.
  rewrite <- has_true_iff. destruct (has k m); split; intros H; congruence.
Qed.

Lemma get_set_eq k v m : get k (set k v m) = Some v.
Proof.
  induction m as [|[k' v'] m IH]; simpl.
  - now rewrite String.eqb_refl.
  - destruct (String.eqb_spec k k') as [->|Hne]; simpl.
    + now rewrite String.eqb_refl.
    + apply String.eqb_neq in Hne. now rewrite Hne.
Qed.

Lemma get_set_ne k k' v m : k <> k' -> get k' (set k v m) = get k' m.
Proof.
  intros Hne. induction m as [|[k0 v0] m IH]; simpl.
  - assert (String.eqb k' k = false) as -> by (apply String.eqb_neq; congruence).
    reflexivity.
  - destruct (String.eqb_spec k k0) as [->|Hne0]; simpl.
    + assert (String.eqb k' k0 = false) as -> by (apply String.eqb_neq; congruence).
      reflexivity.
    + now rewrite IH.
Qed.

Lemma has_set k k' v m :
  has k' (set k v m) = (String.eqb k k' || has k' m)%bool.
Proof.
  unfold has. destruct (String.eqb_spec k k') as [->|Hne]; simpl.
  - now rewrite get_set_eq.
  - now rewrite get_set_ne.
Qed.

(** [set] appends a fresh key at the end and leaves the key list alone
    otherwise. *)
Lemma keys_set k v m :
  keys (set k v m) = if has k m then keys m else keys m ++ [k].
Proof.
  unfold has, keys. induction m as [|[k' v'] m IH]; simpl; [reflexivity|].
  destruct (String.eqb_spec k k') as [->|Hne]; simpl; [reflexivity|].
  rewrite IH. now destruct (get k m).
Qed.

Lemma keys_set_NoDup k v m : NoDup (keys m) -> NoDup (keys (set k v m)).
Proof.
  intros Hnd. rewrite keys_set. destruct (has k m) eqn:Hh; [exact Hnd|].
  apply has_false_iff in Hh. apply NoDup_app. split; [exact Hnd|].
  split.
  - intros x Hx Hx'. apply list_elem_of_singleton in Hx'. now subst.
  - apply NoDup_singleton.
Qed.

Lemma elem_of_keys_set k k' v m :
  k' ∈ keys (set k v m) <-> k' = k \/ k' ∈ keys m.
Proof.
  rewrite <- !has_true_iff, has_set, orb_true_iff.
  split; (intros [H|H]; [left | now right]).
  - now apply String.eqb_eq in H.
  - subst. apply String.eqb_refl.
Qed.

(** Every binding in the list is what [get] finds, once keys are unique. *)
Lemma elem_of_get k v m : NoDup (keys m) -> (k, v) ∈ m -> get k m = Some v.
Proof.
  unfold keys. induction m as [|[k' v'] m IH]; simpl; intros Hnd Hin.
  - inversion Hin.
  - apply NoDup_cons in Hnd as [Hk Hnd].
    apply elem_of_cons in Hin as [Heq|Hin].
    + inversion Heq; subst. now rewrite String.eqb_refl.
    + destruct (String.eqb_spec k k') as [->|Hne].
      * exfalso. apply Hk. apply list_elem_of_fmap. now exists (k', v).
      * now apply IH.
Qed.

Lemma get_elem_of k v m : get k m = Some v -> (k, v) ∈ m.
Proof.
  induction m as [|[k' v'] m IH]; simpl; [discriminate|].
  destruct (String.eqb_spec k k') as [->|Hne].
  - intros [= ->]. left.
  - intros H. right. now apply IH.
Qed.

Lemma elem_of_unique k v1 v2 m :
  NoDup (keys m) -> (k, v1) ∈ m -> (k, v2) ∈ m -> v1 = v2.
Proof.
  intros Hnd H1 H2.
  apply (elem_of_get _ _ _ Hnd) in H1. apply (elem_of_get _ _ _ Hnd) in H2.
  congruence.
Qed.

Lemma elem_of_set k k' v v' m :
  (k', v') ∈ set k v m -> (k', v') = (k, v) \/ (k', v') ∈ m.
Proof.
  induction m as [|[k0 v0] m IH]; simpl.
  - intros H. apply list_elem_of_singleton in H. now left.
  - destruct (String.eqb_spec k k0) as [->|Hne]; intros H;
      apply elem_of_cons in H as [H|H].
    + now left.
    + right. now right.
    + right. rewrite H. left.
    + destruct (IH H) as [H'|H']; [now left | right; now right].
Qed.

Lemma elem_of_keys k m : k ∈ keys m <-> exists v, (k, v) ∈ m.
Proof.
  unfold keys. split.
  - intros H. apply list_elem_of_fmap in H as [[k' v] [-> H]]. now exists v.
  - intros [v H]. apply list_elem_of_fmap. now exists (k, v).
Qed.

Lemma has_get_Some k m : has k m = true <-> exists v, get k m = Some v.
Proof.
  unfold has. destruct (get k m) as [v|].
  - split; [intros _; now exists v | reflexivity].
  - split; [discriminate | intros [v Hv]; discriminate].
Qed.
End JSMapFacts.
End JSMapFacts.

(** ** Facts about [MonacoCommands.ACTIONS] *)

Module ActionsFacts.
Import MonacoCommands.

Lemma excluded_false_iff id : excluded id = false <-> id ∉ EXCLUDE_ACTIONS.
Proof. unfold excluded. apply bool_decide_eq_false. Qed.

Lemma well_keyed_empty : well_keyed JSMap.empty.
Proof. split; [constructor | intros k c H; inversion H]. Qed.

Lemma well_keyed_set k c A :
  cmd_id c = k -> well_keyed A -> well_keyed (JSMap.set k c A).
Proof.
  intros Hid [Hnd Hown]. split.
  - now apply JSMapFacts.keys_set_NoDup.
  - intros k' c' Hin. apply JSMapFacts.elem_of_set in Hin as [[= -> ->]|Hin].
    + exact Hid.
    + now apply Hown.
Qed.

Lemma well_keyed_action_step ic A a :
  well_keyed A -> well_keyed (action_step ic A a).
Proof.
  intros H. unfold action_step. destruct (excluded (action_id a)); simpl.
  - exact H.
  - now apply well_keyed_set.
Qed.

Lemma well_keyed_keybinding_step A kb :
  well_keyed A -> well_keyed (keybinding_step A kb).
Proof.
  intros H. unfold keybinding_step.
  destruct (negb (JSMap.has (keybinding_command kb) A) && negb (excluded (keybinding_command kb))).
  - now apply well_keyed_set.
  - exact H.
Qed.

(** A loop keeps what each of its steps keeps. *)
Lemma foldl_invariant {A B} (P : A -> Prop) (f : A -> B -> A) (l : list B) :
  (forall a b, P a -> P (f a b)) -> forall a, P a -> P (foldl f a l).
Proof.
  intros Hstep. induction l as [|b l IH]; simpl; intros a Ha.
  - exact Ha.
  - apply IH. now apply Hstep.
Qed.

Lemma well_keyed_from_editor_actions monaco :
  well_keyed (ACTIONS_from_editor_actions monaco).
Proof.
  unfold ACTIONS_from_editor_actions. apply (foldl_invariant well_keyed).
  - intros A a. apply well_keyed_action_step.
  - apply well_keyed_empty.
Qed.

Lemma well_keyed_ACTIONS monaco : well_keyed (ACTIONS monaco).
Proof.
  unfold ACTIONS. apply (foldl_invariant well_keyed).
  - intros A kb. apply well_keyed_keybinding_step.
  - apply well_keyed_from_editor_actions.
Qed.

(** *** The first pass *)

Lemma keys_action_pass ic l : forall A k,
  k ∈ JSMap.keys (foldl (action_step ic) A l) <->
  k ∈ JSMap.keys A \/ (k ∈ map action_id l /\ excluded k = false).
Proof.
  induction l as [|a l IH]; simpl; intros A k.
  - split; [now left | intros [H|[H _]]; [exact H | inversion H]].
  - rewrite IH. unfold action_step at 1.
    destruct (excluded (action_id a)) eqn:Hex; simpl.
    + rewrite elem_of_cons. split.
      * intros [H|[H1 H2]]; [now left | right; split; [now right | exact H2]].
      * intros [H|[[->|H1] H2]]; [now left | congruence | right; now split].
    + rewrite JSMapFacts.elem_of_keys_set, elem_of_cons. split.
      * intros [[->|H]|[H1 H2]].
        -- right. split; [now left | exact Hex].
        -- now left.
        -- right. split; [now right | exact H2].
      * intros [H|[[->|H1] H2]].
        -- left. now right.
        -- left. now left.
        -- right. now split.
Qed.

Lemma entries_action_pass ic l : forall A k c,
  (k, c) ∈ foldl (action_step ic) A l ->
  (k, c) ∈ A \/
  exists a, a ∈ l /\ action_id a = k /\
            c = {| cmd_id := k; cmd_label := Some (action_label a); cmd_icon := ic !! k |}.
Proof.
  induction l as [|a l IH]; simpl; intros A k c Hin.
  - now left.
  - apply IH in Hin as [Hin|(a' & Ha' & Hid & Hc)].
    + unfold action_step in Hin. destruct (excluded (action_id a)); simpl in Hin.
      * now left.
      * apply JSMapFacts.elem_of_set in Hin as [[= -> ->]|Hin]; [|now left].
        right. exists a. split; [left | split; reflexivity].
    + right. exists a'. split; [now right | now split].
Qed.

(** *** The second pass *)

Lemma keybinding_step_present A kb :
  JSMap.has (keybinding_command kb) A = true -> keybinding_step A kb = A.
Proof. intros H. unfold keybinding_step. now rewrite H. Qed.

Lemma get_keybinding_step A kb k :
  JSMap.has k A = true ->
  JSMap.get k (keybinding_step A kb) = JSMap.get k A.
Proof.
  intros Hk. unfold keybinding_step.
  destruct (JSMap.has (keybinding_command kb) A) eqn:Hh; simpl; [reflexivity|].
  destruct (excluded (keybinding_command kb)); simpl; [reflexivity|].
  apply JSMapFacts.get_set_ne. intros Heq. rewrite Heq in Hh. congruence.
Qed.

Lemma has_keybinding_step A kb k :
  JSMap.has k A = true -> JSMap.has k (keybinding_step A kb) = true.
Proof.
  intros Hk. unfold JSMap.has. rewrite get_keybinding_step by exact Hk. exact Hk.
Qed.

Lemma get_keybinding_pass l : forall A k,
  JSMap.has k A = true ->
  JSMap.get k (foldl keybinding_step A l) = JSMap.get k A.
Proof.
  induction l as [|kb l IH]; intros A k Hk; [reflexivity|].
  change (foldl keybinding_step A (kb :: l))
    with (foldl keybinding_step (keybinding_step A kb) l).
  rewrite IH by now apply has_keybinding_step.
  now apply get_keybinding_step.
Qed.

Lemma keys_keybinding_pass l : forall A k,
  k ∈ JSMap.keys (foldl keybinding_step A l) <->
  k ∈ JSMap.keys A \/ (k ∈ map keybinding_command l /\ excluded k = false).
Proof.
  induction l as [|kb l IH]; simpl; intros A k.
  - split; [now left | intros [H|[H _]]; [exact H | inversion H]].
  - rewrite IH. unfold keybinding_step at 1.
    destruct (JSMap.has (keybinding_command kb) A) eqn:Hh; simpl.
    + apply JSMapFacts.has_true_iff in Hh. rewrite elem_of_cons. split.
      * intros [H|[H1 H2]]; [now left | right; split; [now right | exact H2]].
      * intros [H|[[->|H1] H2]]; [now left | now left | right; now split].
    + destruct (excluded (keybinding_command kb)) eqn:Hex; simpl.
      * rewrite elem_of_cons. split.
        -- intros [H|[H1 H2]]; [now left | right; split; [now right | exact H2]].
        -- intros [H|[[->|H1] H2]]; [now left | congruence | right; now split].
      * rewrite JSMapFacts.elem_of_keys_set, elem_of_cons. split.
        -- intros [[->|H]|[H1 H2]].
           ++ right. split; [now left | exact Hex].
           ++ now left.
           ++ right. split; [now right | exact H2].
        -- intros [H|[[->|H1] H2]].
           ++ left. now right.
           ++ left. now left.
           ++ right. now split.
Qed.

Lemma entries_keybinding_pass l : forall A k c,
  (k, c) ∈ foldl keybinding_step A l ->
  (k, c) ∈ A \/ (JSMap.has k A = false /\ c = bare k).
Proof.
  induction l as [|kb l IH]; simpl; intros A k c Hin.
  - now left.
  - apply IH in Hin as [Hin|[Hh Hc]].
    + unfold keybinding_step in Hin.
      destruct (JSMap.has (keybinding_command kb) A) eqn:Hh; simpl in Hin; [now left|].
      destruct (excluded (keybinding_command kb)); simpl in Hin; [now left|].
      apply JSMapFacts.elem_of_set in Hin as [[= -> ->]|Hin]; [|now left].
      right. now split.
    + right. split; [|exact Hc].
      destruct (JSMap.has k A) eqn:Hk; [|reflexivity].
      apply (has_keybinding_step A kb) in Hk. congruence.
Qed.

(** *** The finished table *)

Lemma keys_ACTIONS monaco id :
  id ∈ JSMap.keys (ACTIONS monaco) <->
  (id ∈ map action_id (getEditorActions monaco) \/
   id ∈ map keybinding_command (getDefaultKeybindings monaco)) /\
  id ∉ EXCLUDE_ACTIONS.
Proof.
  unfold ACTIONS, ACTIONS_from_editor_actions.
  rewrite keys_keybinding_pass, keys_action_pass, <- excluded_false_iff.
  split.
  - intros [[H|[H1 H2]]|[H1 H2]]; [inversion H | split; [now left | exact H2] |
                                   split; [now right | exact H2]].
  - intros [[H1|H1] H2]; [left; right; now split | right; now split].
Qed.

Lemma descriptors_ACTIONS monaco k c :
  (k, c) ∈ ACTIONS monaco ->
  (exists a, a ∈ getEditorActions monaco /\ action_id a = k /\
             c = {| cmd_id := k; cmd_label := Some (action_label a);
                    cmd_icon := icons monaco !! k |}) \/
  ((k ∉ map action_id (getEditorActions monaco)) /\ c = bare k).
Proof.
  intros Hin.
  assert (Hkey : k ∈ JSMap.keys (ACTIONS monaco))
    by (apply JSMapFacts.elem_of_keys; now exists c).
  apply keys_ACTIONS in Hkey as [_ Hex]. apply excluded_false_iff in Hex.
  unfold ACTIONS in Hin. apply entries_keybinding_pass in Hin as [Hin|[Hh ->]].
  - left. unfold ACTIONS_from_editor_actions in Hin.
    apply entries_action_pass in Hin as [Hin|Hin]; [inversion Hin | exact Hin].
  - right. split; [|reflexivity].
    apply JSMapFacts.has_false_iff in Hh. intros Ha. apply Hh.
    unfold ACTIONS_from_editor_actions. apply keys_action_pass. right. now split.
Qed.

End ActionsFacts.

(** ** Facts about the registration loops *)

Module RegistrationFacts.
Import MonacoCommands MonacoEditorCommandHandlers.

Lemma newEditorCommandHandler_known monaco id :
  known monaco id = true -> exists h, newEditorCommandHandler monaco id = ret h.
Proof.
  unfold known, newEditorCommandHandler.
  destruct (getEditorCommand monaco id) as [ec|]; [intros _; eauto|].
  destruct (getCommand monaco id) as [c|]; [intros _; eauto | discriminate].
Qed.

Lemma newEditorCommandHandler_unknown monaco id :
  known monaco id = false -> newEditorCommandHandler monaco id = throw (notFound id).
Proof.
  unfold known, newEditorCommandHandler.
  destruct (getEditorCommand monaco id) as [ec|]; [discriminate|].
  destruct (getCommand monaco id) as [c|]; [discriminate | reflexivity].
Qed.

Lemma for_of_cons {A} (x : A) xs body :
  for_of (x :: xs) body = bind (body x) (fun _ => for_of xs body).
Proof. reflexivity. Qed.

(** One turn of the loop on an entry whose id is known. *)
Lemma register_known monaco c rest :
  known monaco (cmd_id c) = true ->
  exists h, newEditorCommandHandler monaco (cmd_id c) = ret h /\
    for_of (c :: rest) (registerAction monaco) =
      (RegisterCommand c h :: trace (for_of rest (registerAction monaco)),
       outcome (for_of rest (registerAction monaco))).
Proof.
  intros Hk. destruct (newEditorCommandHandler_known _ _ Hk) as [h Hh].
  exists h. split; [exact Hh|].
  rewrite for_of_cons. unfold registerAction at 1. rewrite Hh. simpl.
  now destruct (for_of rest (registerAction monaco)).
Qed.

(** One turn of the loop on an entry whose id is unknown: the loop ends. *)
Lemma register_unknown monaco c rest :
  known monaco (cmd_id c) = false ->
  for_of (c :: rest) (registerAction monaco) = ([], inl (notFound (cmd_id c))).
Proof.
  intros Hk. rewrite for_of_cons. unfold registerAction at 1.
  now rewrite (newEditorCommandHandler_unknown _ _ Hk).
Qed.

Lemma register_all_known monaco l :
  Forall (fun c => known monaco (cmd_id c) = true) l ->
  let r := for_of l (registerAction monaco) in
  outcome r = inr tt /\
  registeredCommands (trace r) = l /\
  length (trace r) = length l /\
  forall c h, RegisterCommand c h ∈ trace r ->
              newEditorCommandHandler monaco (cmd_id c) = ret h.
Proof.
  induction 1 as [|c l Hc Hl IH]; simpl.
  - repeat split. intros c h Hin. inversion Hin.
  - destruct (register_known monaco c l Hc) as (h & Hh & Heq).
    cbv zeta in IH. destruct IH as (Ho & Hr & Hlen & Hhs).
    change (bind (registerAction monaco c) (fun _ => for_of l (registerAction monaco)))
      with (for_of (c :: l) (registerAction monaco)).
    rewrite Heq. unfold trace, outcome in *. simpl. repeat split.
    + exact Ho.
    + now rewrite Hr.
    + now rewrite Hlen.
    + intros c' h' Hin. apply elem_of_cons in Hin as [[= -> ->]|Hin].
      * exact Hh.
      * now apply Hhs.
Qed.

Lemma register_some_unknown monaco l :
  Exists (fun c => known monaco (cmd_id c) = false) l ->
  exists c, c ∈ l /\ known monaco (cmd_id c) = false /\
    outcome (for_of l (registerAction monaco)) = inl (notFound (cmd_id c)).
Proof.
  induction l as [|c l IH]; intros Hex; [inversion Hex|].
  destruct (known monaco (cmd_id c)) eqn:Hk.
  - assert (Hex' : Exists (fun c => known monaco (cmd_id c) = false) l).
    { apply Exists_cons in Hex as [H|H]; [congruence | exact H]. }
    destruct (IH Hex') as (c' & Hin & Hk' & Ho).
    exists c'. split; [now right|]. split; [exact Hk'|].
    destruct (register_known monaco c l Hk) as (h & _ & Heq).
    rewrite Heq. exact Ho.
  - exists c. split; [left|]. split; [exact Hk|].
    now rewrite register_unknown.
Qed.

Lemma values_ids A : well_keyed A -> map cmd_id (JSMap.values A) = JSMap.keys A.
Proof.
  intros [_ Hown]. unfold JSMap.values, JSMap.keys.
  induction A as [|[k c] A IH]; simpl; [reflexivity|].
  rewrite (Hown k c) by left. f_equal. apply IH.
  intros k' c' Hin. apply Hown. now right.
Qed.

Lemma elem_of_values (A : JSMap.t MonacoCommand) c :
  well_keyed A -> c ∈ JSMap.values A -> (cmd_id c, c) ∈ A.
Proof.
  intros [_ Hown] Hin. unfold JSMap.values in Hin.
  apply list_elem_of_fmap in Hin as [[k c'] [-> Hin]]. simpl.
  now rewrite (Hown k c').
Qed.

(** *** The internal language-service commands *)

Lemma internal_loop monacoCommands l :
  let r := for_of l (fun command =>
             if startsWith command "_execute" then
               registerCommand (bare command) (internalCommandHandler monacoCommands command)
             else ret tt) in
  outcome r = inr tt /\
  trace r = map (fun command => RegisterCommand (bare command)
                                 (internalCommandHandler monacoCommands command))
                (List.filter (fun command => startsWith command "_execute") l).
Proof.
  induction l as [|k l IH]; simpl; [split; reflexivity|].
  cbv zeta in IH. destruct IH as [Ho Ht].
  destruct (for_of l _) as [t o] eqn:Hloop. unfold trace, outcome in *. simpl in *.
  destruct (startsWith k "_execute"); simpl; subst; split; reflexivity.
Qed.

End RegistrationFacts.

(** ** Facts about the walk up the DOM *)

Module FocusFacts.
Import KeybindingContexts.

Lemma isEditorId_true ID i :
  isEditorId ID i = true <-> i <> "" /\ startsWith i ID = true.
Proof.
  unfold isEditorId, truthy_string.
  rewrite andb_true_iff, negb_true_iff, String.eqb_neq. reflexivity.
Qed.

(** The loop answers [true] exactly when it meets an editor id on the
    chain that starts at [parent]. *)
Lemma searchFrom_true ID parent :
  searchFrom ID parent = true <->
  exists a, a ∈ parent :: ancestors parent /\ isEditorId ID (id a) = true.
Proof.
  induction parent as [i|i p IH] using Element_chain_ind; simpl.
  - destruct (isEditorId ID i) eqn:Hi.
    + split; [intros _|reflexivity]. exists (mkElement i None). split; [left | exact Hi].
    + split; [discriminate|]. intros (a & Ha & Hid).
      apply list_elem_of_singleton in Ha. subst. simpl in Hid. congruence.
  - destruct (isEditorId ID i) eqn:Hi.
    + split; [intros _|reflexivity].
      exists (mkElement i (Some p)). split; [left | exact Hi].
    + rewrite IH. split.
      * intros (a & Ha & Hid). exists a. split; [now right | exact Hid].
      * intros (a & Ha & Hid). apply elem_of_cons in Ha as [->|Ha].
        -- simpl in Hid. congruence.
        -- now exists a.
Qed.

Lemma activeElementIsInEditor_true ID document :
  activeElementIsInEditor ID document = true <->
  exists a, a ∈ activeAncestors document /\ isEditorId ID (id a) = true.
Proof.
  unfold activeElementIsInEditor, activeAncestors.
  destruct (activeElement document) as [[i [p|]]|]; simpl.
  - apply searchFrom_true.
  - split; [discriminate | intros (a & Ha & _); inversion Ha].
  - split; [discriminate | intros (a & Ha & _); inversion Ha].
Qed.

End FocusFacts.

(** ** The definitions at work on the sample registries *)

Example ACTIONS_sample_keys :
  JSMap.keys (MonacoCommands.ACTIONS Samples.monaco)
    = ["editor.action.rename"; "undo"; "cursorUndo"].
Proof. reflexivity. Qed.

Example internal_commands_sample :
  map cmd_id (registeredCommands (trace
    (MonacoEditorCommandHandlers.registerInternalLanguageServiceCommands Samples.monaco)))
    = ["_executeDefinitionProvider"; "_executeHoverProvider"].
Proof. reflexivity. Qed.

Example tab_size_labels_sample :
  match MonacoEditorCommandHandlers.configureTabSize (Samples.editor 2) false with
  | [QuickOpen onType _] => map label (onType "")
  | _ => []
  end = ["1"; "2   Configured Tab Size"; "3"; "4"; "5"; "6"; "7"; "8"].
Proof. reflexivity. Qed.

(** * The claims *)

Section Claims.
Import MonacoCommands MonacoEditorCommandHandlers.

(** C1.  [newEditorCommandHandler(id)] throws exactly when [id] is found
    neither by [EditorExtensionsRegistry.getEditorCommand] nor by
    [CommandsRegistry.getCommand]; the error it throws is the one whose
    message ends in the missing id; and when either lookup succeeds it
    returns a handler, having thrown nothing and called nothing. *)
Theorem newEditorCommandHandler_throws_iff_unknown (monaco : Monaco) (id : string) :
  ((exists e, outcome (newEditorCommandHandler monaco id) = inl e) <->
   getEditorCommand monaco id = None /\ getCommand monaco id = None) /\
  (forall e, outcome (newEditorCommandHandler monaco id) = inl e ->
             message e = "Could not find monaco command with ID: " +:+ id) /\
  (is_Some (getEditorCommand monaco id) \/ is_Some (getCommand monaco id) ->
   exists handler, newEditorCommandHandler monaco id = ret handler).
Proof.
  unfold newEditorCommandHandler.
  destruct (getEditorCommand monaco id) as [editorCommand|] eqn:Hec.
  - split; [|split].
    + split; [intros [e He]; discriminate | intros [H _]; discriminate].
    + intros e He. discriminate.
    + intros _. eauto.
  - destruct (getCommand monaco id) as [command|] eqn:Hc.
    + split; [|split].
      * split; [intros [e He]; discriminate | intros [_ H]; discriminate].
      * intros e He. discriminate.
      * intros _. eauto.
    + split; [|split].
      * split; [intros _; now split | intros _; eexists; reflexivity].
      * intros e [= <-]. reflexivity.
      * intros [[x Hx]|[x Hx]]; discriminate.
Qed.

Lemma newEditorCommandHandler_throws_iff_unknown_witness :
  message (notFound "workbench.action.files.save")
    = "Could not find monaco command with ID: workbench.action.files.save" /\
  exists handler, newEditorCommandHandler Samples.monaco "undo" = ret handler.
Proof.
  split.
  - apply (proj1 (proj2 (newEditorCommandHandler_throws_iff_unknown
                           Samples.monaco_dangling "workbench.action.files.save"))).
    reflexivity.
  - apply (proj2 (proj2 (newEditorCommandHandler_throws_iff_unknown Samples.monaco "undo"))).
    right. eexists. reflexivity.
Defined.

(** C2, as the code has it.  Provided every id of [MonacoCommands.ACTIONS]
    is known to the editor-command registry or to the core command registry,
    [registerBuiltinMonacoActions] calls the host's [registerCommand] once per
    entry of [ACTIONS] and does nothing else: the registered ids are pairwise
    distinct, they are exactly the ids of the editor actions and of the
    default-keybinding commands that are not in [EXCLUDE_ACTIONS], an id of an
    editor action carries that action's label and the icon of its menu entry
    (if any), any other id is registered bare, and each handler is the one
    [newEditorCommandHandler] builds for the id.  If some id of [ACTIONS] is
    unknown, the registration ends with the error for an unknown id. *)
Theorem registerBuiltinMonacoActions_mirrors_ACTIONS (monaco : Monaco) :
  let r := registerBuiltinMonacoActions monaco (ACTIONS monaco) in
  let registered := registeredCommands (trace r) in
  ((forall id, id ∈ JSMap.keys (ACTIONS monaco) -> known monaco id = true) ->
   outcome r = inr tt /\
   length (trace r) = length registered /\
   registered = JSMap.values (ACTIONS monaco) /\
   NoDup (map cmd_id registered) /\
   (forall id, id ∈ map cmd_id registered <->
      (id ∈ map action_id (getEditorActions monaco) \/
       id ∈ map keybinding_command (getDefaultKeybindings monaco)) /\
      id ∉ EXCLUDE_ACTIONS) /\
   (forall c, c ∈ registered ->
      (exists a, a ∈ getEditorActions monaco /\ action_id a = cmd_id c /\
                 cmd_label c = Some (action_label a) /\
                 cmd_icon c = icons monaco !! cmd_id c) \/
      ((cmd_id c ∉ map action_id (getEditorActions monaco)) /\
       cmd_label c = None /\ cmd_icon c = None)) /\
   (forall c h, RegisterCommand c h ∈ trace r ->
      newEditorCommandHandler monaco (cmd_id c) = ret h)) /\
  (forall id, id ∈ JSMap.keys (ACTIONS monaco) -> known monaco id = false ->
   exists id', id' ∈ JSMap.keys (ACTIONS monaco) /\ known monaco id' = false /\
               outcome r = inl (notFound id')).
Proof.
  pose proof (ActionsFacts.well_keyed_ACTIONS monaco) as Hwk.
  pose proof (RegistrationFacts.values_ids _ Hwk) as Hids.
  cbv zeta. unfold registerBuiltinMonacoActions. split.
  - intros Hknown.
    assert (Hall : Forall (fun c => known monaco (cmd_id c) = true)
                          (JSMap.values (ACTIONS monaco))).
    { apply Forall_forall. intros c Hc. apply Hknown.
      rewrite <- Hids. apply list_elem_of_fmap. now exists c. }
    destruct (RegistrationFacts.register_all_known monaco _ Hall)
      as (Ho & Hr & Hlen & Hhs).
    rewrite Hr, Hids.
    split; [exact Ho|]. split; [exact Hlen|]. split; [reflexivity|].
    split; [apply Hwk|]. split; [intros id; apply ActionsFacts.keys_ACTIONS|].
    split; [|exact Hhs].
    intros c Hc. apply (RegistrationFacts.elem_of_values _ _ Hwk) in Hc.
    apply ActionsFacts.descriptors_ACTIONS in Hc as [(a & Ha & Hid & Hc)|[Hn Hc]].
    + left. exists a. rewrite Hc at 2 3. simpl. now repeat split.
    + right. rewrite Hc at 2 3. simpl. now repeat split.
  - intros id Hin Hunk.
    assert (Hex : Exists (fun c => known monaco (cmd_id c) = false)
                         (JSMap.values (ACTIONS monaco))).
    { rewrite <- Hids in Hin. apply list_elem_of_fmap in Hin as [c [-> Hc]].
      apply Exists_exists. now exists c. }
    destruct (RegistrationFacts.register_some_unknown monaco _ Hex) as (c & Hc & Hk & Ho).
    exists (cmd_id c). split; [|now split].
    rewrite <- Hids. apply list_elem_of_fmap. now exists c.
Qed.

Lemma registerBuiltinMonacoActions_mirrors_ACTIONS_witness :
  registeredCommands
    (trace (registerBuiltinMonacoActions Samples.monaco (ACTIONS Samples.monaco)))
    = JSMap.values (ACTIONS Samples.monaco) /\
  exists id', id' ∈ JSMap.keys (ACTIONS Samples.monaco_dangling) /\
    known Samples.monaco_dangling id' = false /\
    outcome (registerBuiltinMonacoActions Samples.monaco_dangling
               (ACTIONS Samples.monaco_dangling)) = inl (notFound id').
Proof.
  split.
  - apply (proj1 (registerBuiltinMonacoActions_mirrors_ACTIONS Samples.monaco)).
    intros id Hin. vm_compute in Hin.
    repeat (apply elem_of_cons in Hin as [->|Hin]; [reflexivity|]).
    inversion Hin.
  - apply (proj2 (registerBuiltinMonacoActions_mirrors_ACTIONS Samples.monaco_dangling)
                 "workbench.action.files.save").
    + left.
    + reflexivity.
Defined.

(** C2, as stated, fails: with a default keybinding whose command no
    registry of the embedded editor knows, [ACTIONS] has an entry for it, but
    [registerBuiltinMonacoActions] throws and registers nothing. *)
Lemma registerBuiltinMonacoActions_unknown_id_registers_nothing :
  let monaco := Samples.monaco_dangling in
  let r := registerBuiltinMonacoActions monaco (ACTIONS monaco) in
  JSMap.values (ACTIONS monaco) = [bare "workbench.action.files.save"] /\
  registeredCommands (trace r) = [] /\
  registeredCommands (trace r) <> JSMap.values (ACTIONS monaco) /\
  outcome r = inl (notFound "workbench.action.files.save").
Proof. repeat split. discriminate. Qed.

(** C3.  [MonacoCommands.ACTIONS] maps each command id to at most one
    descriptor and its keys are pairwise distinct; the loop over the default
    keybindings leaves [ACTIONS] as it is when the keybinding's command is
    already a key; so every entry the loop over the editor actions created is
    still there, unchanged, in the finished table. *)
Theorem ACTIONS_unique_by_command_id (monaco : Monaco) :
  (forall id c1 c2,
     (id, c1) ∈ ACTIONS monaco -> (id, c2) ∈ ACTIONS monaco -> c1 = c2) /\
  NoDup (JSMap.keys (ACTIONS monaco)) /\
  (forall A keybinding,
     JSMap.has (keybinding_command keybinding) A = true ->
     keybinding_step A keybinding = A) /\
  (forall id c,
     JSMap.get id (ACTIONS_from_editor_actions monaco) = Some c ->
     JSMap.get id (ACTIONS monaco) = Some c).
Proof.
  destruct (ActionsFacts.well_keyed_ACTIONS monaco) as [Hnd _].
  split; [|split; [|split]].
  - intros id c1 c2. now apply JSMapFacts.elem_of_unique.
  - exact Hnd.
  - apply ActionsFacts.keybinding_step_present.
  - intros id c Hget. unfold ACTIONS.
    rewrite ActionsFacts.get_keybinding_pass; [exact Hget|].
    apply JSMapFacts.has_get_Some. now exists c.
Qed.

Lemma ACTIONS_unique_by_command_id_witness :
  keybinding_step (ACTIONS_from_editor_actions Samples.monaco)
                  (Samples.keybinding "editor.action.rename")
    = ACTIONS_from_editor_actions Samples.monaco /\
  JSMap.get "editor.action.rename" (ACTIONS Samples.monaco)
    = Some {| cmd_id := "editor.action.rename";
              cmd_label := Some "Rename Symbol";
              cmd_icon := Some (ThemeIcon "edit") |} /\
  bare "undo" = bare "undo".
Proof.
  pose proof (ACTIONS_unique_by_command_id Samples.monaco) as (Huniq & _ & Hskip & Hkept).
  split; [|split].
  - apply Hskip. reflexivity.
  - apply Hkept. reflexivity.
  - apply (Huniq "undo"); apply JSMapFacts.get_elem_of; reflexivity.
Defined.

(** C4.  [registerInternalLanguageServiceCommands] calls the host's
    [registerCommand] exactly for the ids of the embedded editor's
    [CommandsRegistry] that start with ['_execute'], in the registry's order
    and does nothing else; the handler registered for such an id, run on any
    argument list, makes one call: [instantiationService.invokeFunction] on
    the handler of the original command with the same arguments. *)
Theorem registerInternalLanguageServiceCommands_forwards (monaco : Monaco) :
  let r := registerInternalLanguageServiceCommands monaco in
  outcome r = inr tt /\
  length (trace r) = length (registeredCommands (trace r)) /\
  map cmd_id (registeredCommands (trace r))
    = List.filter (fun id => startsWith id "_execute") (JSMap.keys (getCommands monaco)) /\
  (forall id, id ∈ map cmd_id (registeredCommands (trace r)) <->
     id ∈ JSMap.keys (getCommands monaco) /\ startsWith id "_execute" = true) /\
  (forall c h, RegisterCommand c h ∈ trace r ->
     exists original, getCommand monaco (cmd_id c) = Some original /\
       forall args, execute h args
                    = ([InvokeFunction (command_handler original) args], inr tt)).
Proof.
  cbv zeta. unfold registerInternalLanguageServiceCommands.
  destruct (RegistrationFacts.internal_loop (getCommands monaco)
              (JSMap.keys (getCommands monaco))) as [Ho Ht].
  cbv zeta in Ho, Ht.
  assert (Hreg : forall l,
    registeredCommands
      (map (fun command => RegisterCommand (bare command)
              (internalCommandHandler (getCommands monaco) command)) l)
    = map bare l).
  { induction l as [|k l IH]; simpl; [reflexivity|]. now rewrite <- IH. }
  assert (Hmap : forall l, map cmd_id (map bare l) = l).
  { induction l as [|k l IH]; simpl; [reflexivity|]. now rewrite IH. }
  unfold bare in Ho, Ht, Hreg, Hmap.
  split; [exact Ho|]. rewrite Ht, Hreg, Hmap.
  split; [now rewrite !length_map|]. split; [reflexivity|]. split.
  - intros id. rewrite list_elem_of_In, filter_In, <- list_elem_of_In. reflexivity.
  - intros c h Hin. apply list_elem_of_fmap in Hin as [k [[= -> ->] Hin]].
    apply list_elem_of_In, filter_In in Hin as [Hin _]. apply list_elem_of_In in Hin.
    apply JSMapFacts.has_true_iff, JSMapFacts.has_get_Some in Hin as [original Hget].
    exists original. split; [exact Hget|].
    intros args. simpl. now rewrite Hget.
Qed.

Lemma registerInternalLanguageServiceCommands_forwards_witness :
  let h := internalCommandHandler (getCommands Samples.monaco) "_executeHoverProvider" in
  exists original,
    getCommand Samples.monaco "_executeHoverProvider" = Some original /\
    forall args, execute h args
                 = ([InvokeFunction (command_handler original) args], inr tt).
Proof.
  cbv zeta.
  apply (proj2 (proj2 (proj2 (proj2
           (registerInternalLanguageServiceCommands_forwards Samples.monaco))))
         (bare "_executeHoverProvider")).
  right. left.
Defined.

(** C5.  For an editor whose document model is present, [configureTabSize]
    opens one prompt whose entries, whatever the filter, are the eight
    choices that set the tab size to 1, 2, ..., 8 in this order (with the
    requested [insertSpaces]); the entry of size [s] is labelled [s], or
    [s   Configured Tab Size] when [s] is the model's current tab size; for
    the empty filter the preselected index is the current tab size minus one,
    and an entry that sets the current tab size again carries the
    [Configured Tab Size] label and sits at that index. *)
Theorem configureTabSize_choices
    (editor : MonacoEditor) (model : ITextModel) (useSpaces : bool) :
  modelOf editor = Some model ->
  let current := tabSize (getOptions model) in
  exists onType options,
    configureTabSize editor useSpaces = [QuickOpen onType options] /\
    (forall lookFor,
       map (fun item => run item OPEN) (onType lookFor)
         = map (fun size => ([UpdateOptions model size useSpaces], true))
               [1; 2; 3; 4; 5; 6; 7; 8] /\
       map label (onType lookFor)
         = map (fun size => if size =? current
                            then toString size +:+ "   Configured Tab Size"
                            else toString size)
               [1; 2; 3; 4; 5; 6; 7; 8] /\
       (forall item mode, item ∈ onType lookFor -> mode <> OPEN ->
                          run item mode = ([], false))) /\
    exists select,
      selectIndex options = Some select /\
      select "" = current - 1 /\
      (forall (i : nat) item,
         onType "" !! i = Some item ->
         run item OPEN = ([UpdateOptions model current useSpaces], true) ->
         label item = toString current +:+ "   Configured Tab Size" /\
         select "" = Z.of_nat i).
Proof.
  intros Hmodel. cbv zeta. unfold configureTabSize. rewrite Hmodel.
  destruct model as [mid [current spaces]]. simpl.
  eexists _, _. split; [reflexivity|]. split.
  - intros lookFor. split; [reflexivity|]. split; [reflexivity|].
    intros item mode Hin Hmode.
    repeat (apply elem_of_cons in Hin as [->|Hin];
            [destruct mode; simpl; congruence|]).
    inversion Hin.
  - eexists. split; [reflexivity|]. split; [reflexivity|].
    intros i item Hlook Hrun.
    do 8 (destruct i as [|i];
          [simpl in Hlook; injection Hlook as <-; simpl in Hrun;
           injection Hrun as <-; split; reflexivity|]).
    simpl in Hlook. discriminate.
Qed.

Lemma configureTabSize_choices_witness :
  exists onType options,
    configureTabSize (Samples.editor 4) true = [QuickOpen onType options] /\
    map label (onType "") = ["1"; "2"; "3"; "4   Configured Tab Size"; "5"; "6"; "7"; "8"] /\
    exists select, selectIndex options = Some select /\ select "" = 3.
Proof.
  destruct (configureTabSize_choices (Samples.editor 4) (Samples.model 4) true)
    as (onType & options & Heq & Hitems & select & Hsel & Hempty & _);
    [reflexivity|].
  exists onType, options. split; [exact Heq|]. split.
  - destruct (Hitems "") as (_ & Hlabels & _). exact Hlabels.
  - exists select. split; [exact Hsel | exact Hempty].
Defined.

(** C6, as the code has it.  For every editor, [configureEol] opens one
    prompt whose entries, whatever the filter, are ['LF'] and ['CRLF'] in this
    order; accepting an entry pushes the corresponding end-of-line sequence
    onto the editor's document model when that model is present and makes no
    call at all when it is absent (the entry reports success either way);
    any other mode does nothing. *)
Theorem configureEol_choices (editor : MonacoEditor) :
  let pushed eol := match modelOf editor with
                    | Some model => [PushEOL model eol]
                    | None => []
                    end in
  exists onType options,
    configureEol editor = [QuickOpen onType options] /\
    forall lookFor,
      map label (onType lookFor) = ["LF"; "CRLF"] /\
      map (fun item => run item OPEN) (onType lookFor)
        = [(pushed LF, true); (pushed CRLF, true)] /\
      (forall item mode, item ∈ onType lookFor -> mode <> OPEN ->
                         run item mode = ([], false)).
Proof.
  cbv zeta. unfold configureEol. eexists _, _. split; [reflexivity|].
  intros lookFor. split; [reflexivity|]. split.
  - simpl. unfold setEol. now destruct (modelOf editor).
  - intros item mode Hin Hmode.
    repeat (apply elem_of_cons in Hin as [->|Hin];
            [destruct mode; simpl; congruence|]).
    inversion Hin.
Qed.

Lemma configureEol_choices_witness :
  exists onType options,
    configureEol (Samples.editor 4) = [QuickOpen onType options] /\
    map (fun item => run item OPEN) (onType "")
      = [([PushEOL (Samples.model 4) LF], true); ([PushEOL (Samples.model 4) CRLF], true)] /\
    forall item, item ∈ onType "" -> run item PREVIEW = ([], false).
Proof.
  destruct (configureEol_choices (Samples.editor 4))
    as (onType & options & Heq & Hitems).
  destruct (Hitems "") as (Hlabels & Hopen & Hother).
  exists onType, options. split; [exact Heq|]. split; [exact Hopen|].
  intros item Hin. apply Hother; [exact Hin | discriminate].
Defined.

(** C6, as stated, fails: on an editor without a document the prompt still
    offers ['LF'] and ['CRLF'], and accepting either succeeds without pushing
    any end-of-line sequence anywhere. *)
Lemma configureEol_without_document_pushes_nothing :
  exists onType options,
    configureEol Samples.editor_without_document = [QuickOpen onType options] /\
    map label (onType "") = ["LF"; "CRLF"] /\
    map (fun item => run item OPEN) (onType "") = [([], true); ([], true)] /\
    ~ exists item model eol, item ∈ onType "" /\ PushEOL model eol ∈ (run item OPEN).1.
Proof.
  eexists _, _. split; [reflexivity|]. split; [reflexivity|]. split; [reflexivity|].
  intros (item & model & eol & Hin & Hpush).
  repeat (apply elem_of_cons in Hin as [->|Hin]; [inversion Hpush|]).
  inversion Hin.
Qed.

(** C7.  For an editor whose document model is absent, because
    [editor.document] is undefined or because its [textEditorModel] is,
    [setEol] and [configureTabSize] make no call at all: no state is changed,
    no prompt is opened, and nothing is thrown. *)
Theorem absent_model_is_no_op (editor : MonacoEditor) :
  (document editor = None \/
   exists doc, document editor = Some doc /\ textEditorModel doc = None) ->
  (forall lineEnding, setEol editor lineEnding = []) /\
  (forall useSpaces, configureTabSize editor useSpaces = []).
Proof.
  intros Habsent.
  assert (Hmodel : modelOf editor = None).
  { unfold modelOf. destruct Habsent as [->|(doc & -> & ->)]; reflexivity. }
  unfold setEol, configureTabSize. rewrite Hmodel. now split.
Qed.

Lemma absent_model_is_no_op_witness :
  (setEol Samples.editor_without_document "CRLF" = [] /\
   configureTabSize Samples.editor_without_document true = []) /\
  (setEol Samples.editor_without_model "LF" = [] /\
   configureTabSize Samples.editor_without_model false = []).
Proof.
  split.
  - destruct (absent_model_is_no_op Samples.editor_without_document) as [H1 H2].
    + left. reflexivity.
    + split; [apply H1 | apply H2].
  - destruct (absent_model_is_no_op Samples.editor_without_model) as [H1 H2].
    + right. eexists. split; reflexivity.
    + split; [apply H1 | apply H2].
Defined.

(** C10.  On an editor whose document model is present, [setEol] with any
    [lineEnding] other than ['CRLF'] and ['\r\n'] makes exactly one call,
    [pushEOL(LF)] on that model. *)
Theorem setEol_defaults_to_LF
    (editor : MonacoEditor) (model : ITextModel) (lineEnding : string) :
  modelOf editor = Some model ->
  lineEnding <> "CRLF" -> lineEnding <> CR_LF ->
  setEol editor lineEnding = [PushEOL model LF].
Proof.
  intros Hmodel H1 H2. unfold setEol. rewrite Hmodel.
  apply String.eqb_neq in H1, H2. now rewrite H1, H2.
Qed.

Lemma setEol_defaults_to_LF_witness :
  setEol (Samples.editor 4) "LF" = [PushEOL (Samples.model 4) LF] /\
  setEol (Samples.editor 4) "crlf" = [PushEOL (Samples.model 4) LF] /\
  setEol (Samples.editor 4) "" = [PushEOL (Samples.model 4) LF].
Proof.
  split; [|split]; apply setEol_defaults_to_LF;
    solve [reflexivity | discriminate].
Defined.

(** C8.  [MonacoStrictEditorTextFocusContext.canHandle(widget)] is the
    editor's own [isFocused({ strict: true })] when the widget's editor is a
    [MonacoEditor], and the base class's [canHandle(widget)] otherwise. *)
Theorem canHandle_delegates (super_canHandle : KeybindingContexts.EditorWidget -> bool) :
  (forall editor : MonacoEditor,
     let widget := {| KeybindingContexts.editor := KeybindingContexts.IsMonacoEditor editor |} in
     KeybindingContexts.canHandle super_canHandle widget
       = isFocused editor {| strict := true |}) /\
  (forall name,
     let widget := {| KeybindingContexts.editor := KeybindingContexts.OtherTextEditor name |} in
     KeybindingContexts.canHandle super_canHandle widget = super_canHandle widget).
Proof. split; reflexivity. Qed.

(** C9.  [MonacoNativeTextInputFocusContext.isEnabled] restricts the base
    predicate: whenever the base class's [isEnabled] is false so is the Monaco
    one; it is also false whenever some proper ancestor of the active element
    has an id that starts with [EditorWidgetFactory.ID]; and it is true only
    if the base predicate is true and no such ancestor exists. *)
Theorem isEnabled_restricts_base
    (EditorWidgetFactory_ID : string)
    (super_isEnabled : KeybindingContexts.Document -> bool)
    (document : KeybindingContexts.Document) :
  let inEditor (a : KeybindingContexts.Element) :=
    KeybindingContexts.id a <> "" /\
    startsWith (KeybindingContexts.id a) EditorWidgetFactory_ID = true in
  let monaco_isEnabled :=
    KeybindingContexts.isEnabled EditorWidgetFactory_ID super_isEnabled in
  (super_isEnabled document = false -> monaco_isEnabled document = false) /\
  ((exists a, a ∈ KeybindingContexts.activeAncestors document /\ inEditor a) ->
   monaco_isEnabled document = false) /\
  (monaco_isEnabled document = true <->
   super_isEnabled document = true /\
   forall a, a ∈ KeybindingContexts.activeAncestors document -> ~ inEditor a).
Proof.
  cbv zeta. unfold KeybindingContexts.isEnabled.
  pose proof (FocusFacts.activeElementIsInEditor_true EditorWidgetFactory_ID document) as Hin.
  split; [|split].
  - intros ->. reflexivity.
  - intros (a & Ha & Hid). apply andb_false_iff. right. apply negb_false_iff.
    apply Hin. exists a. split; [exact Ha|]. now apply FocusFacts.isEditorId_true.
  - rewrite andb_true_iff, negb_true_iff. split.
    + intros [Hs Hn]. split; [exact Hs|]. intros a Ha Hid.
      apply not_true_iff_false in Hn. apply Hn, Hin. exists a. split; [exact Ha|].
      now apply FocusFacts.isEditorId_true.
    + intros [Hs Hn]. split; [exact Hs|]. apply not_true_iff_false. intros Ht.
      apply Hin in Ht as (a & Ha & Hid). apply (Hn a Ha).
      now apply FocusFacts.isEditorId_true.
Qed.

Lemma isEnabled_restricts_base_witness :
  let ID := "code-editor-opener" in
  KeybindingContexts.isEnabled ID (fun _ => false)
    {| KeybindingContexts.activeElement := Some Samples.input_in_shell |} = false /\
  KeybindingContexts.isEnabled ID (fun _ => true)
    {| KeybindingContexts.activeElement := Some Samples.textarea_in_editor |} = false /\
  KeybindingContexts.isEnabled ID (fun _ => true)
    {| KeybindingContexts.activeElement := Some Samples.input_in_shell |} = true.
Proof.
  cbv zeta. split; [|split].
  - apply (proj1 (isEnabled_restricts_base "code-editor-opener" (fun _ => false)
                    {| KeybindingContexts.activeElement := Some Samples.input_in_shell |})).
    reflexivity.
  - apply (proj1 (proj2 (isEnabled_restricts_base "code-editor-opener" (fun _ => true)
                    {| KeybindingContexts.activeElement := Some Samples.textarea_in_editor |}))).
    exists (KeybindingContexts.mkElement "code-editor-opener:file:///a.ts"
              (Some (KeybindingContexts.mkElement "" None))).
    split; [right; left | split; [discriminate | reflexivity]].
  - apply (proj2 (proj2 (isEnabled_restricts_base "code-editor-opener" (fun _ => true)
                    {| KeybindingContexts.activeElement := Some Samples.input_in_shell |}))).
    split; [reflexivity|]. intros a Ha [Hne Hid]. simpl in Ha.
    repeat (apply elem_of_cons in Ha as [->|Ha]; [simpl in Hne, Hid; congruence|]).
    inversion Ha.
Defined.

End Claims.

(** * More of the code *)

(** ** More facts about [MonacoCommands] *)

Module TableFacts.
Import MonacoCommands.


Lemma first_occurrences_snoc l k :
  first_occurrences (l ++ [k])
    = if bool_decide (k ∈ l) then first_occurrences l else first_occurrences l ++ [k].
Proof.
  unfold first_occurrences. rewrite reverse_snoc. simpl.
  destruct (decide_rel elem_of k (reverse l)) as [Hin|Hin];
    rewrite elem_of_reverse in Hin.
  - now rewrite bool_decide_eq_true_2.
  - rewrite bool_decide_eq_false_2 by exact Hin. now rewrite reverse_cons.
Qed.

Lemma elem_of_first_occurrences l k : k ∈ first_occurrences l <-> k ∈ l.
Proof.
  unfold first_occurrences.
  now rewrite elem_of_reverse, elem_of_remove_dups, elem_of_reverse.
Qed.

(** *** The icon table *)

Lemma icons_step_other id ic item :
  ~ menu_has_icon id item -> icons_step ic item !! id = ic !! id.
Proof.
  intros Hno. unfold icons_step.
  destruct (menu_command item) as [ci|] eqn:Hc; [|reflexivity].
  destruct (item_icon ci) as [icon|] eqn:Hi; [|reflexivity].
  apply lookup_insert_ne. intros Heq. apply Hno.
  exists icon, ci. now repeat split.
Qed.

Lemma icons_step_hit id icon ic item :
  menu_icon id icon item -> icons_step ic item !! id = Some icon.
Proof.
  intros (ci & Hc & Hid & Hi). unfold icons_step. rewrite Hc, Hi, Hid.
  apply lookup_insert_eq.
Qed.

Lemma icons_untouched id l : forall ic,
  (forall item, item ∈ l -> ~ menu_has_icon id item) ->
  foldl icons_step ic l !! id = ic !! id.
Proof.
  induction l as [|item l IH]; intros ic Hno; [reflexivity|].
  change (foldl icons_step ic (item :: l)) with (foldl icons_step (icons_step ic item) l).
  rewrite IH by (intros i Hi; apply Hno; now right).
  apply icons_step_other, Hno. left.
Qed.

Lemma icons_origin id icon l : forall ic,
  foldl icons_step ic l !! id = Some icon ->
  ic !! id = Some icon \/ exists item, item ∈ l /\ menu_icon id icon item.
Proof.
  induction l as [|item l IH]; intros ic Hl; [now left|].
  change (foldl icons_step ic (item :: l)) with (foldl icons_step (icons_step ic item) l) in Hl.
  apply IH in Hl as [Hl|(i & Hi & Hm)].
  - unfold icons_step in Hl.
    destruct (menu_command item) as [ci|] eqn:Hc; [|now left].
    destruct (item_icon ci) as [icon'|] eqn:Hic; [|now left].
    destruct (decide (item_id ci = id)) as [Heq|Hne].
    + rewrite Heq, lookup_insert_eq in Hl. injection Hl as ->.
      right. exists item. split; [left|]. exists ci. now repeat split.
    + rewrite lookup_insert_ne in Hl by exact Hne. now left.
  - right. exists i. split; [now right | exact Hm].
Qed.

Lemma icons_kept id l : forall ic,
  is_Some (ic !! id) -> is_Some (foldl icons_step ic l !! id).
Proof.
  induction l as [|item l IH]; intros ic Hic; [exact Hic|].
  change (foldl icons_step ic (item :: l)) with (foldl icons_step (icons_step ic item) l).
  apply IH. unfold icons_step.
  destruct (menu_command item) as [ci|]; [|exact Hic].
  destruct (item_icon ci) as [icon|]; [|exact Hic].
  destruct (decide (item_id ci = id)) as [<-|Hne].
  - rewrite lookup_insert_eq. eauto.
  - now rewrite lookup_insert_ne.
Qed.

Lemma icons_present id l : forall ic,
  (exists item, item ∈ l /\ menu_has_icon id item) ->
  is_Some (foldl icons_step ic l !! id).
Proof.
  induction l as [|item l IH]; intros ic (i & Hi & Hm); [inversion Hi|].
  change (foldl icons_step ic (item :: l)) with (foldl icons_step (icons_step ic item) l).
  apply elem_of_cons in Hi as [->|Hi].
  - apply icons_kept. destruct Hm as [icon Hm].
    rewrite (icons_step_hit _ _ _ _ Hm). eauto.
  - apply IH. now exists i.
Qed.

(** *** The two passes *)

Lemma action_step_other ic A a id :
  action_id a <> id -> JSMap.get id (action_step ic A a) = JSMap.get id A.
Proof.
  intros Hne. unfold action_step. destruct (excluded (action_id a)); simpl; [reflexivity|].
  now apply JSMapFacts.get_set_ne.
Qed.

Lemma action_pass_untouched ic id l : forall A,
  (forall a, a ∈ l -> action_id a <> id) ->
  JSMap.get id (foldl (action_step ic) A l) = JSMap.get id A.
Proof.
  induction l as [|a l IH]; intros A Hno; [reflexivity|].
  change (foldl (action_step ic) A (a :: l))
    with (foldl (action_step ic) (action_step ic A a) l).
  rewrite IH by (intros a' Ha'; apply Hno; now right).
  apply action_step_other, Hno. left.
Qed.



(** *** The order of the keys *)

Section KeyOrder.
Context {X : Type} (f : JSMap.t MonacoCommand -> X -> JSMap.t MonacoCommand) (g : X -> string).
Hypothesis keys_f : forall A x,
  JSMap.keys (f A x)
    = if excluded (g x) then JSMap.keys A
      else if JSMap.has (g x) A then JSMap.keys A else JSMap.keys A ++ [g x].

Lemma keys_pass l : forall A K0,
  JSMap.keys A = first_occurrences K0 ->
  JSMap.keys (foldl f A l)
    = first_occurrences (K0 ++ List.filter (fun k => negb (excluded k)) (map g l)).
Proof.
  induction l as [|x l IH] using rev_ind; intros A K0 HA.
  - simpl. now rewrite app_nil_r.
  - rewrite foldl_app. simpl. rewrite keys_f, map_app, List.filter_app. simpl.
    specialize (IH A K0 HA).
    destruct (excluded (g x)) eqn:Hex; simpl.
    + now rewrite app_nil_r.
    + rewrite app_assoc, first_occurrences_snoc, <- IH.
      destruct (JSMap.has (g x) (foldl f A l)) eqn:Hh.
      * apply JSMapFacts.has_true_iff in Hh. rewrite IH, elem_of_first_occurrences in Hh.
        now rewrite bool_decide_eq_true_2.
      * apply JSMapFacts.has_false_iff in Hh. rewrite IH, elem_of_first_occurrences in Hh.
        now rewrite bool_decide_eq_false_2.
Qed.
End KeyOrder.

Lemma keys_action_step ic A a :
  JSMap.keys (action_step ic A a)
    = if excluded (action_id a) then JSMap.keys A
      else if JSMap.has (action_id a) A then JSMap.keys A
           else JSMap.keys A ++ [action_id a].
Proof.
  unfold action_step. destruct (excluded (action_id a)); simpl; [reflexivity|].
  apply JSMapFacts.keys_set.
Qed.

Lemma keys_keybinding_step A kb :
  JSMap.keys (keybinding_step A kb)
    = if excluded (keybinding_command kb) then JSMap.keys A
      else if JSMap.has (keybinding_command kb) A then JSMap.keys A
           else JSMap.keys A ++ [keybinding_command kb].
Proof.
  unfold keybinding_step.
  destruct (JSMap.has (keybinding_command kb) A) eqn:Hh; simpl.
  - now destruct (excluded (keybinding_command kb)).
  - destruct (excluded (keybinding_command kb)); simpl; [reflexivity|].
    rewrite JSMapFacts.keys_set. now rewrite Hh.
Qed.

End TableFacts.

(** * Further properties *)

Section Extras.
Import MonacoCommands MonacoEditorCommandHandlers.

(** X1.  An icon in the icon table of [MonacoCommands] is the icon of some
    entry of menu 7 whose command has that id, and the table has no icon for
    an id exactly when no entry of menu 7 carries a command with that id and
    an icon (entries without a command, or whose command has no icon, do not
    count). *)
Theorem icons_come_from_title_menu (monaco : Monaco) (id : string) :
  (forall icon, icons monaco !! id = Some icon ->
     exists item, item ∈ getMenuItems monaco 7 /\ menu_icon id icon item) /\
  (icons monaco !! id = None <->
     forall item, item ∈ getMenuItems monaco 7 -> ~ menu_has_icon id item).
Proof.
  unfold icons. split.
  - intros icon Hl. apply TableFacts.icons_origin in Hl as [Hl|Hl]; [|exact Hl].
    rewrite lookup_empty in Hl. discriminate.
  - split.
    + intros Hnone item Hin Hm.
      assert (Hs : is_Some (foldl icons_step ∅ (getMenuItems monaco 7) !! id)).
      { apply TableFacts.icons_present. now exists item. }
      rewrite Hnone in Hs. destruct Hs as [x Hx]. discriminate.
    + intros Hno. rewrite TableFacts.icons_untouched by exact Hno. apply lookup_empty.
Qed.

Lemma icons_come_from_title_menu_witness :
  (exists item, item ∈ getMenuItems MoreSamples.monaco_duplicates 7 /\
                menu_icon "editor.action.format" (ThemeIcon "new") item) /\
  icons MoreSamples.monaco_duplicates !! "editor.action.rename" = None.
Proof.
  split.
  - apply (proj1 (icons_come_from_title_menu MoreSamples.monaco_duplicates
                    "editor.action.format")).
    reflexivity.
  - apply (proj2 (icons_come_from_title_menu MoreSamples.monaco_duplicates
                    "editor.action.rename")).
    intros item Hin (icon & ci & Hc & Hid & Hi). simpl in Hin.
    repeat (apply elem_of_cons in Hin as [->|Hin];
            [simpl in Hc; injection Hc as <-; simpl in Hid; discriminate|]).
    inversion Hin.
Defined.

(** X2.  When several entries of menu 7 carry an icon for the same command
    id, the icon table keeps the icon of the last of them. *)
Theorem icons_last_menu_entry_wins
    (monaco : Monaco) (id : string) (icon : MonacoIcon)
    (before : list MenuItem) (item : MenuItem) (after : list MenuItem) :
  getMenuItems monaco 7 = before ++ item :: after ->
  menu_icon id icon item ->
  (forall item', item' ∈ after -> ~ menu_has_icon id item') ->
  icons monaco !! id = Some icon.
Proof.
  intros Hmenu Hitem Hafter. unfold icons. rewrite Hmenu, foldl_app.
  change (foldl icons_step (foldl icons_step ∅ before) (item :: after))
    with (foldl icons_step (icons_step (foldl icons_step ∅ before) item) after).
  rewrite TableFacts.icons_untouched by exact Hafter.
  now apply TableFacts.icons_step_hit.
Qed.

Lemma icons_last_menu_entry_wins_witness :
  icons MoreSamples.monaco_duplicates !! "editor.action.format" = Some (ThemeIcon "new").
Proof.
  apply (icons_last_menu_entry_wins MoreSamples.monaco_duplicates _ _
           [ {| menu_command := Some {| item_id := "editor.action.format";
                                        item_icon := Some (ThemeIcon "old") |} |} ]
           {| menu_command := Some {| item_id := "editor.action.format";
                                      item_icon := Some (ThemeIcon "new") |} |}
           [ {| menu_command := Some {| item_id := "editor.action.format";
                                        item_icon := None |} |} ]).
  - reflexivity.
  - eexists. repeat split.
  - intros item' Hin (icon & ci & Hc & Hid & Hi).
    apply list_elem_of_singleton in Hin. subst. simpl in Hc. injection Hc as <-.
    discriminate.
Defined.



(** X4.  When several editor actions share an id (not an excluded one), the
    entry of [ACTIONS] for that id carries the label of the last of them,
    with the icon the icon table has for the id; no default keybinding
    changes it. *)
Theorem last_editor_action_labels_the_entry
    (monaco : Monaco) (before : list EditorAction) (action : EditorAction)
    (after : list EditorAction) :
  getEditorActions monaco = before ++ action :: after ->
  action_id action ∉ EXCLUDE_ACTIONS ->
  (forall a, a ∈ after -> action_id a <> action_id action) ->
  JSMap.get (action_id action) (ACTIONS monaco)
    = Some {| cmd_id := action_id action;
              cmd_label := Some (action_label action);
              cmd_icon := icons monaco !! action_id action |}.
Proof.
  intros Hactions Hex Hafter. apply ActionsFacts.excluded_false_iff in Hex.
  assert (Hfirst : JSMap.get (action_id action) (ACTIONS_from_editor_actions monaco)
                   = Some {| cmd_id := action_id action;
                             cmd_label := Some (action_label action);
                             cmd_icon := icons monaco !! action_id action |}).
  { unfold ACTIONS_from_editor_actions. rewrite Hactions, foldl_app.
    change (foldl (action_step (icons monaco))
              (foldl (action_step (icons monaco)) JSMap.empty before) (action :: after))
      with (foldl (action_step (icons monaco))
              (action_step (icons monaco)
                 (foldl (action_step (icons monaco)) JSMap.empty before) action) after).
    rewrite TableFacts.action_pass_untouched by exact Hafter.
    unfold action_step. rewrite Hex. simpl. apply JSMapFacts.get_set_eq. }
  unfold ACTIONS. rewrite ActionsFacts.get_keybinding_pass; [exact Hfirst|].
  apply JSMapFacts.has_get_Some. eauto.
Qed.

Lemma last_editor_action_labels_the_entry_witness :
  JSMap.get "editor.action.format" (ACTIONS MoreSamples.monaco_duplicates)
    = Some {| cmd_id := "editor.action.format";
              cmd_label := Some "Format Document";
              cmd_icon := icons MoreSamples.monaco_duplicates !! "editor.action.format" |}.
Proof.
  apply (last_editor_action_labels_the_entry MoreSamples.monaco_duplicates
           [ Samples.action "editor.action.format" "Format";
             Samples.action "editor.action.rename" "Rename" ]
           (Samples.action "editor.action.format" "Format Document") []).
  - reflexivity.
  - apply ActionsFacts.excluded_false_iff. reflexivity.
  - intros a Ha. inversion Ha.
Defined.

(** X5.  The keys of [ACTIONS], hence the order in which
    [registerBuiltinMonacoActions] registers, are the ids of the editor
    actions followed by the commands of the default keybindings, without the
    excluded ids, each id at the place of its first occurrence. *)
Theorem ACTIONS_keys_in_order_of_first_occurrence (monaco : Monaco) :
  JSMap.keys (ACTIONS monaco)
    = first_occurrences
        (List.filter (fun id => negb (excluded id))
           (map action_id (getEditorActions monaco)
            ++ map keybinding_command (getDefaultKeybindings monaco))).
Proof.
  rewrite List.filter_app. unfold ACTIONS.
  apply (TableFacts.keys_pass keybinding_step keybinding_command
           TableFacts.keys_keybinding_step).
  unfold ACTIONS_from_editor_actions.
  apply (TableFacts.keys_pass (action_step (icons monaco)) action_id
           (TableFacts.keys_action_step (icons monaco)) _ JSMap.empty []).
  reflexivity.
Qed.

(** ** Handlers and registration *)

Lemma handler_shape monaco id h :
  newEditorCommandHandler monaco id = ret h ->
  (exists ec, getEditorCommand monaco id = Some ec /\
     h = mkCommandHandler (fun args => ([RunCommand ec args], inr tt))
                          (Some editorIsActiveOrFocused)) \/
  (exists c, getEditorCommand monaco id = None /\ getCommand monaco id = Some c /\
     h = mkCommandHandler
           (fun args => ([CallHandler (command_handler c) args], inr tt))
           (Some (fun s =>
              if editorIsActiveOrFocused s then true
              else if isNativeTextInputAware c && nativeTextInputFocus s then true
              else false))).
Proof.
  unfold newEditorCommandHandler, ret, throw.
  destruct (getEditorCommand monaco id) as [ec|].
  - intros [= <-]. left. now exists ec.
  - destruct (getCommand monaco id) as [c|]; [|discriminate].
    intros [= <-]. right. now exists c.
Qed.

Lemma isNativeTextInputAware_true c :
  isNativeTextInputAware c = true <->
  exists w, command_when c = Some w /\ key w = Some "textInputFocus".
Proof.
  unfold isNativeTextInputAware. destruct (command_when c) as [w|].
  - rewrite bool_decide_eq_true. split.
    + intros H. now exists w.
    + now intros (w' & [= <-] & H).
  - split; [discriminate | intros (w & H & _); discriminate].
Qed.

Lemma registered_handler monaco l c h :
  RegisterCommand c h ∈ trace (for_of l (registerAction monaco)) ->
  c ∈ l /\ newEditorCommandHandler monaco (cmd_id c) = ret h.
Proof.
  induction l as [|c0 l IH]; [intros H; inversion H|].
  destruct (known monaco (cmd_id c0)) eqn:Hk.
  - destruct (RegistrationFacts.register_known monaco c0 l Hk) as (h0 & Hh0 & Heq).
    rewrite Heq. unfold trace at 1. simpl. intros Hin.
    apply elem_of_cons in Hin as [[= -> ->]|Hin].
    + split; [left | exact Hh0].
    + destruct (IH Hin) as [H1 H2]. split; [now right | exact H2].
  - rewrite (RegistrationFacts.register_unknown monaco c0 l Hk).
    intros H. inversion H.
Qed.

Lemma registeredCommands_cons c h t :
  registeredCommands (RegisterCommand c h :: t) = c :: registeredCommands t.
Proof. reflexivity. Qed.

Lemma registration_stops monaco l :
  Exists (fun c => known monaco (cmd_id c) = false) l ->
  exists l1 c l2,
    l = l1 ++ c :: l2 /\
    Forall (fun c => known monaco (cmd_id c) = true) l1 /\
    known monaco (cmd_id c) = false /\
    registeredCommands (trace (for_of l (registerAction monaco))) = l1 /\
    length (trace (for_of l (registerAction monaco))) = length l1 /\
    outcome (for_of l (registerAction monaco)) = inl (notFound (cmd_id c)).
Proof.
  induction l as [|c0 l IH]; intros Hex; [inversion Hex|].
  destruct (known monaco (cmd_id c0)) eqn:Hk.
  - assert (Hex' : Exists (fun c => known monaco (cmd_id c) = false) l).
    { apply Exists_cons in Hex as [H|H]; [congruence | exact H]. }
    destruct (IH Hex') as (l1 & c & l2 & Hl & Hl1 & Hc & Hr & Hlen & Ho).
    destruct (RegistrationFacts.register_known monaco c0 l Hk) as (h0 & _ & Heq).
    exists (c0 :: l1), c, l2. rewrite Heq. unfold trace, outcome in *.
    cbn [fst snd]. rewrite registeredCommands_cons.
    split; [exact (f_equal (cons c0) Hl)|]. split; [now constructor|].
    split; [exact Hc|]. split; [now rewrite Hr|].
    split; [simpl; now rewrite Hlen | exact Ho].
  - exists [], c0, l. rewrite (RegistrationFacts.register_unknown monaco c0 l Hk).
    repeat split; [constructor | exact Hk].
Qed.

Lemma hostCalls_HostCall t : CommandContribution.hostCalls (map CommandContribution.HostCall t) = t.
Proof. induction t as [|e t IH]; simpl; [reflexivity | now rewrite IH]. Qed.

Lemma handlerIds_HostCall t : CommandContribution.handlerIds (map CommandContribution.HostCall t) = [].
Proof. induction t as [|e t IH]; simpl; [reflexivity | exact IH]. Qed.

Lemma registeredCommands_app t1 t2 :
  registeredCommands (t1 ++ t2) = registeredCommands t1 ++ registeredCommands t2.
Proof. apply omap_app. Qed.



(** X7.  Every handler built by [newEditorCommandHandler] has an
    [isEnabled]; it answers true exactly when a code editor is active or
    focused, or when the id is known to the core registry only, the core
    command's [when] has the key ['textInputFocus'], and a native text input
    has the focus. *)
Theorem builtin_handler_enablement
    (monaco : Monaco) (id : string) (h : CommandHandler) :
  newEditorCommandHandler monaco id = ret h ->
  exists enabled,
    isEnabled h = Some enabled /\
    forall s, enabled s = true <->
      activeCodeEditor s = true \/ hasFocusedCodeEditor s = true \/
      (nativeTextInputFocus s = true /\ getEditorCommand monaco id = None /\
       exists c w, getCommand monaco id = Some c /\ command_when c = Some w /\
                   key w = Some "textInputFocus").
Proof.
  intros Hh.
  destruct (handler_shape _ _ _ Hh) as [(ec & Hec & ->)|(c & Hec & Hc & ->)];
    eexists; (split; [reflexivity|]); intros s; unfold editorIsActiveOrFocused.
  - rewrite orb_true_iff. split.
    + intros [H|H]; [now left | right; now left].
    + intros [H|[H|(_ & Hnone & _)]]; [now left | now right | congruence].
  - destruct (activeCodeEditor s); [split; [now left | reflexivity]|].
    destruct (hasFocusedCodeEditor s); [split; [right; now left | reflexivity]|].
    simpl. destruct (isNativeTextInputAware c) eqn:Haware; simpl.
    + apply isNativeTextInputAware_true in Haware as (w & Hw & Hkey).
      destruct (nativeTextInputFocus s).
      * split; [|reflexivity]. intros _. right. right. split; [reflexivity|].
        split; [exact Hec|]. now exists c, w.
      * split; [discriminate|]. intros [H|[H|(H & _)]]; discriminate.
    + split; [discriminate|].
      intros [H|[H|(_ & _ & c' & w & Hc' & Hw & Hkey)]]; try discriminate.
      rewrite Hc in Hc'. injection Hc' as <-.
      assert (isNativeTextInputAware c = true)
        by (apply isNativeTextInputAware_true; now exists w).
      congruence.
Qed.

Lemma builtin_handler_enablement_witness :
  let text_input_only :=
    {| activeCodeEditor := false; hasFocusedCodeEditor := false;
       nativeTextInputFocus := true |} in
  exists h1 h2 undo selectAll,
    newEditorCommandHandler MoreSamples.monaco_overlap "undo" = ret h1 /\
    isEnabled h1 = Some undo /\ undo text_input_only = false /\
    newEditorCommandHandler MoreSamples.monaco_overlap "editor.action.selectAll" = ret h2 /\
    isEnabled h2 = Some selectAll /\ selectAll text_input_only = true.
Proof.
  cbv zeta.
  destruct (builtin_handler_enablement MoreSamples.monaco_overlap "undo" _ eq_refl)
    as (undo & Hundo & Hspec).
  destruct (builtin_handler_enablement MoreSamples.monaco_overlap
              "editor.action.selectAll" _ eq_refl) as (selectAll & Hsel & Hspec').
  eexists _, _, undo, selectAll.
  split; [reflexivity|]. split; [exact Hundo|]. split.
  - match goal with |- ?e = false => destruct e eqn:E; [|reflexivity] end.
    apply Hspec in E as [E|[E|(_ & E & _)]]; discriminate.
  - split; [reflexivity|]. split; [exact Hsel|].
    apply Hspec'. right. right. split; [reflexivity|]. split; [reflexivity|].
    eexists _, _. repeat split.
Defined.

(** X8.  When some entry of the table handed to
    [registerBuiltinMonacoActions] has an id that neither registry knows, the
    error reports the first such id, and the commands registered before the
    error are exactly the entries in front of it, in order, one call each. *)
Theorem registerBuiltinMonacoActions_stops_at_first_unknown
    (monaco : Monaco) (table : JSMap.t MonacoCommand) :
  (exists c, c ∈ JSMap.values table /\ known monaco (cmd_id c) = false) ->
  let r := registerBuiltinMonacoActions monaco table in
  exists before c after,
    JSMap.values table = before ++ c :: after /\
    Forall (fun c' => known monaco (cmd_id c') = true) before /\
    known monaco (cmd_id c) = false /\
    registeredCommands (trace r) = before /\
    length (trace r) = length before /\
    outcome r = inl (notFound (cmd_id c)).
Proof.
  intros (c & Hc & Hk). cbv zeta. unfold registerBuiltinMonacoActions.
  apply registration_stops. apply Exists_exists. now exists c.
Qed.

Lemma registerBuiltinMonacoActions_stops_at_first_unknown_witness :
  let monaco := MoreSamples.monaco_partly_known in
  let r := registerBuiltinMonacoActions monaco (ACTIONS monaco) in
  exists before c after,
    JSMap.values (ACTIONS monaco) = before ++ c :: after /\
    Forall (fun c' => known monaco (cmd_id c') = true) before /\
    known monaco (cmd_id c) = false /\
    registeredCommands (trace r) = before /\
    length (trace r) = length before /\
    outcome r = inl (notFound (cmd_id c)).
Proof.
  apply (registerBuiltinMonacoActions_stops_at_first_unknown
           MoreSamples.monaco_partly_known (ACTIONS MoreSamples.monaco_partly_known)).
  exists (bare "workbench.action.files.save"). split; [|reflexivity].
  right. left.
Defined.

(** X9.  Every handler that [registerBuiltinMonacoActions] registers has an
    [isEnabled] that answers true whenever a code editor is active or
    focused; the handlers that [registerInternalLanguageServiceCommands]
    registers have no [isEnabled] at all. *)
Theorem builtin_handlers_are_guarded_internal_ones_are_not
    (monaco : Monaco) (table : JSMap.t MonacoCommand) :
  (forall c h, RegisterCommand c h ∈ trace (registerBuiltinMonacoActions monaco table) ->
     exists enabled, isEnabled h = Some enabled /\
       forall s, activeCodeEditor s = true \/ hasFocusedCodeEditor s = true ->
                 enabled s = true) /\
  (forall c h, RegisterCommand c h ∈ trace (registerInternalLanguageServiceCommands monaco) ->
     isEnabled h = None).
Proof.
  split.
  - intros c h Hin. unfold registerBuiltinMonacoActions in Hin.
    apply registered_handler in Hin as [_ Hh].
    destruct (handler_shape _ _ _ Hh) as [(ec & _ & ->)|(c' & _ & _ & ->)];
      eexists; (split; [reflexivity|]); intros s Hs; unfold editorIsActiveOrFocused.
    + apply orb_true_iff. destruct Hs; [now left | now right].
    + assert (Hor : activeCodeEditor s || hasFocusedCodeEditor s = true)
        by (apply orb_true_iff; destruct Hs; [now left | now right]).
      now rewrite Hor.
  - intros c h Hin. unfold registerInternalLanguageServiceCommands in Hin.
    destruct (RegistrationFacts.internal_loop (getCommands monaco)
                (JSMap.keys (getCommands monaco))) as [_ Ht].
    cbv zeta in Ht. unfold bare in Ht. rewrite Ht in Hin.
    apply list_elem_of_fmap in Hin as [k [[= -> ->] _]]. reflexivity.
Qed.

Lemma builtin_handlers_are_guarded_internal_ones_are_not_witness :
  (exists enabled,
     isEnabled (internalCommandHandler (getCommands Samples.monaco) "_executeHoverProvider")
       = None /\
     enabled {| activeCodeEditor := true; hasFocusedCodeEditor := false;
                nativeTextInputFocus := false |} = true).
Proof.
  pose proof (builtin_handlers_are_guarded_internal_ones_are_not Samples.monaco
                (ACTIONS Samples.monaco)) as [Hbuiltin Hinternal].
  destruct (Hbuiltin (bare "undo")
              (mkCommandHandler
                 (fun args => ([CallHandler (HandlerFn "undo") args], inr tt))
                 (Some (fun s =>
                    if editorIsActiveOrFocused s then true
                    else if isNativeTextInputAware (snd (Samples.command "undo"))
                            && nativeTextInputFocus s then true
                    else false))))
    as (enabled & _ & Hen).
  { right. left. }
  exists enabled. split.
  - apply (Hinternal (bare "_executeHoverProvider")). right. left.
  - apply Hen. now left.
Defined.

(** X10.  When every id of the table is known, [registerCommands] succeeds:
    it first registers the five custom handlers with the Monaco command
    registry, in the order show references, configure indentation, configure
    end of line, indent using spaces, indent using tabs; then every call goes
    to the host registry, which receives the entries of the table in order
    followed by a bare command for each id of [CommandsRegistry] that starts
    with ['_execute']. *)
Theorem registerCommands_runs_the_three_steps_in_order
    (ids : CommandContribution.EditorCommandIds)
    (p2m : CommandContribution.ProtocolToMonacoConverter)
    (monaco : Monaco) (table : JSMap.t MonacoCommand) :
  (forall c, c ∈ JSMap.values table -> known monaco (cmd_id c) = true) ->
  let r := CommandContribution.registerCommands ids p2m monaco table in
  r.2 = inr tt /\
  r.1 = CommandContribution.registerEditorCommandHandlers ids p2m
        ++ map CommandContribution.HostCall (CommandContribution.hostCalls r.1) /\
  CommandContribution.handlerIds r.1
    = [ CommandContribution.SHOW_REFERENCES ids;
        CommandContribution.CONFIG_INDENTATION ids;
        CommandContribution.CONFIG_EOL ids;
        CommandContribution.INDENT_USING_SPACES ids;
        CommandContribution.INDENT_USING_TABS ids ] /\
  length (CommandContribution.hostCalls r.1)
    = length (registeredCommands (CommandContribution.hostCalls r.1)) /\
  registeredCommands (CommandContribution.hostCalls r.1)
    = JSMap.values table
      ++ map bare (List.filter (fun id => startsWith id "_execute")
                               (JSMap.keys (getCommands monaco))).
Proof.
  intros Hknown. cbv zeta. unfold CommandContribution.registerCommands.
  assert (Hall : Forall (fun c => known monaco (cmd_id c) = true) (JSMap.values table))
    by (apply Forall_forall; exact Hknown).
  destruct (RegistrationFacts.register_all_known monaco _ Hall) as (Ho & Hr & Hlen & _).
  fold (registerBuiltinMonacoActions monaco table) in Ho, Hr, Hlen.
  destruct (registerBuiltinMonacoActions monaco table) as [builtin o].
  unfold trace, outcome in Ho, Hr, Hlen. cbn [fst snd] in Ho, Hr, Hlen. subst o.
  pose proof (RegistrationFacts.internal_loop (getCommands monaco)
                (JSMap.keys (getCommands monaco))
              : outcome (registerInternalLanguageServiceCommands monaco) = inr tt /\
                trace (registerInternalLanguageServiceCommands monaco)
                  = map (fun command =>
                           RegisterCommand (bare command)
                             (internalCommandHandler (getCommands monaco) command))
                        (List.filter (fun id => startsWith id "_execute")
                                     (JSMap.keys (getCommands monaco))))
    as [Hio Hit].
  destruct (registerInternalLanguageServiceCommands monaco) as [internal o'].
  unfold trace, outcome in Hio, Hit. cbn [fst snd] in Hio, Hit. subst o'.
  cbn [fst snd].
  assert (Hhost : CommandContribution.hostCalls
            (CommandContribution.registerEditorCommandHandlers ids p2m
             ++ map CommandContribution.HostCall builtin
             ++ map CommandContribution.HostCall internal) = builtin ++ internal).
  { unfold CommandContribution.hostCalls at 1. rewrite !omap_app.
    fold (CommandContribution.hostCalls (map CommandContribution.HostCall builtin)).
    fold (CommandContribution.hostCalls (map CommandContribution.HostCall internal)).
    now rewrite !hostCalls_HostCall. }
  rewrite Hhost. split; [reflexivity|]. split; [now rewrite map_app|]. split.
  - unfold CommandContribution.handlerIds at 1. rewrite !omap_app.
    fold (CommandContribution.handlerIds (map CommandContribution.HostCall builtin)).
    fold (CommandContribution.handlerIds (map CommandContribution.HostCall internal)).
    now rewrite !handlerIds_HostCall.
  - assert (Hreg : registeredCommands internal
                   = map bare (List.filter (fun id => startsWith id "_execute")
                                           (JSMap.keys (getCommands monaco)))).
    { rewrite Hit. clear. induction (List.filter _ _) as [|k l IH]; simpl;
        [reflexivity | now rewrite <- IH]. }
    rewrite registeredCommands_app, Hr, Hreg, !length_app, Hlen, Hit, !length_map.
    now split.
Qed.

Lemma registerCommands_runs_the_three_steps_in_order_witness :
  let r := CommandContribution.registerCommands MoreSamples.ids MoreSamples.p2m
             Samples.monaco (ACTIONS Samples.monaco) in
  r.2 = inr tt /\
  map cmd_id (registeredCommands (CommandContribution.hostCalls r.1))
    = [ "editor.action.rename"; "undo"; "cursorUndo";
        "_executeDefinitionProvider"; "_executeHoverProvider" ].
Proof.
  cbv zeta.
  destruct (registerCommands_runs_the_three_steps_in_order MoreSamples.ids MoreSamples.p2m
              Samples.monaco (ACTIONS Samples.monaco)) as (Ho & _ & _ & _ & Hreg).
  - intros c Hc. vm_compute in Hc.
    repeat (apply elem_of_cons in Hc as [->|Hc]; [reflexivity|]).
    inversion Hc.
  - split; [exact Ho|]. rewrite Hreg. reflexivity.
Defined.

(** X11.  When some id of the table is unknown, [registerCommands] ends with
    the error for the first unknown id; the five custom handlers have been
    registered, the host registry has received exactly the entries of the
    table in front of that id, and no internal language-service command has
    been registered. *)
Theorem registerCommands_stops_before_internal_commands
    (ids : CommandContribution.EditorCommandIds)
    (p2m : CommandContribution.ProtocolToMonacoConverter)
    (monaco : Monaco) (table : JSMap.t MonacoCommand) :
  (exists c, c ∈ JSMap.values table /\ known monaco (cmd_id c) = false) ->
  let r := CommandContribution.registerCommands ids p2m monaco table in
  exists before c after,
    JSMap.values table = before ++ c :: after /\
    Forall (fun c' => known monaco (cmd_id c') = true) before /\
    known monaco (cmd_id c) = false /\
    r.2 = inl (notFound (cmd_id c)) /\
    CommandContribution.handlerIds r.1
      = [ CommandContribution.SHOW_REFERENCES ids;
          CommandContribution.CONFIG_INDENTATION ids;
          CommandContribution.CONFIG_EOL ids;
          CommandContribution.INDENT_USING_SPACES ids;
          CommandContribution.INDENT_USING_TABS ids ] /\
    length (CommandContribution.hostCalls r.1) = length before /\
    registeredCommands (CommandContribution.hostCalls r.1) = before.
Proof.
  intros (c0 & Hc0 & Hk0). cbv zeta. unfold CommandContribution.registerCommands.
  assert (Hex : Exists (fun c => known monaco (cmd_id c) = false) (JSMap.values table))
    by (apply Exists_exists; now exists c0).
  destruct (registration_stops monaco _ Hex) as (before & c & after & Hl & Hb & Hc & Hr & Hlen & Ho).
  fold (registerBuiltinMonacoActions monaco table) in Hr, Hlen, Ho.
  destruct (registerBuiltinMonacoActions monaco table) as [builtin o].
  unfold trace, outcome in Hr, Hlen, Ho. cbn [fst snd] in Hr, Hlen, Ho. subst o.
  cbn [fst snd]. exists before, c, after.
  split; [exact Hl|]. split; [exact Hb|]. split; [exact Hc|]. split; [reflexivity|].
  split.
  - unfold CommandContribution.handlerIds at 1. rewrite omap_app.
    fold (CommandContribution.handlerIds (map CommandContribution.HostCall builtin)).
    now rewrite handlerIds_HostCall.
  - assert (Hhost : CommandContribution.hostCalls
              (CommandContribution.registerEditorCommandHandlers ids p2m
               ++ map CommandContribution.HostCall builtin) = builtin).
    { unfold CommandContribution.hostCalls at 1. rewrite omap_app.
      fold (CommandContribution.hostCalls (map CommandContribution.HostCall builtin)).
      now rewrite hostCalls_HostCall. }
    rewrite Hhost. now split.
Qed.

Lemma registerCommands_stops_before_internal_commands_witness :
  let r := CommandContribution.registerCommands MoreSamples.ids MoreSamples.p2m
             MoreSamples.monaco_partly_known (ACTIONS MoreSamples.monaco_partly_known) in
  exists before c after,
    JSMap.values (ACTIONS MoreSamples.monaco_partly_known) = before ++ c :: after /\
    r.2 = inl (notFound (cmd_id c)) /\
    registeredCommands (CommandContribution.hostCalls r.1) = before.
Proof.
  cbv zeta.
  destruct (registerCommands_stops_before_internal_commands MoreSamples.ids MoreSamples.p2m
              MoreSamples.monaco_partly_known (ACTIONS MoreSamples.monaco_partly_known))
    as (before & c & after & Hl & _ & _ & Ho & _ & _ & Hr).
  - exists (bare "workbench.action.files.save"). split; [right; left | reflexivity].
  - exists before, c, after. split; [exact Hl|]. split; [exact Ho | exact Hr].
Defined.

(** ** The prompts *)

(** X12.  On an editor whose document model is present,
    [configureIndentation] offers ['Indent Using Spaces'] and ['Indent Using
    Tabs'], in this order; accepting one opens the tab-size prompt (the entry
    itself reports [false]), and accepting the entry at index [k] of that
    prompt updates the model to tab size [k + 1] with [insertSpaces] true for
    the first choice and false for the second. *)
Theorem configureIndentation_leads_to_tab_size
    (editor : MonacoEditor) (model : ITextModel) (useSpaces : bool) (k : nat) :
  modelOf editor = Some model -> (k < 8)%nat ->
  exists onType options choice,
    configureIndentation editor = [QuickOpen onType options] /\
    (forall lookFor,
       map label (onType lookFor) = ["Indent Using Spaces"; "Indent Using Tabs"]) /\
    onType "" !! (if useSpaces then 0 else 1)%nat = Some choice /\
    exists onType' options' size,
      run choice OPEN = ([QuickOpen onType' options'], false) /\
      onType' "" !! k = Some size /\
      run size OPEN = ([UpdateOptions model (Z.of_nat k + 1) useSpaces], true).
Proof.
  intros Hmodel Hk. unfold configureIndentation.
  eexists _, _, _. split; [reflexivity|]. split; [reflexivity|].
  split; [destruct useSpaces; reflexivity|].
  destruct useSpaces; simpl; unfold configureTabSize; rewrite Hmodel;
    do 2 eexists;
    do 8 (destruct k as [|k];
          [eexists; split; [reflexivity|]; split; [simpl; reflexivity | reflexivity]|]);
    lia.
Qed.

Lemma configureIndentation_leads_to_tab_size_witness :
  exists onType options choice,
    configureIndentation (Samples.editor 4) = [QuickOpen onType options] /\
    onType "" !! 1%nat = Some choice /\
    exists onType' options' size,
      run choice OPEN = ([QuickOpen onType' options'], false) /\
      onType' "" !! 1%nat = Some size /\
      run size OPEN = ([UpdateOptions (Samples.model 4) 2 false], true).
Proof.
  destruct (configureIndentation_leads_to_tab_size (Samples.editor 4) (Samples.model 4)
              false 1) as (onType & options & choice & Heq & _ & Hchoice & Hnext).
  - reflexivity.
  - lia.
  - exists onType, options, choice. split; [exact Heq|]. split; [exact Hchoice|].
    exact Hnext.
Defined.

(** X13.  On an editor whose document model is absent,
    [configureIndentation] still opens its prompt with the two entries, but
    accepting either does nothing: no second prompt, no change. *)
Theorem configureIndentation_without_model (editor : MonacoEditor) :
  modelOf editor = None ->
  exists onType options,
    configureIndentation editor = [QuickOpen onType options] /\
    forall lookFor,
      map label (onType lookFor) = ["Indent Using Spaces"; "Indent Using Tabs"] /\
      forall item mode, item ∈ onType lookFor -> run item mode = ([], false).
Proof.
  intros Hmodel. unfold configureIndentation.
  eexists _, _. split; [reflexivity|]. intros lookFor. split; [reflexivity|].
  intros item mode Hin.
  repeat (apply elem_of_cons in Hin as [->|Hin];
          [destruct mode; simpl; unfold configureTabSize; now rewrite ?Hmodel|]).
  inversion Hin.
Qed.

Lemma configureIndentation_without_model_witness :
  exists onType options,
    configureIndentation Samples.editor_without_model = [QuickOpen onType options] /\
    map (fun item => run item OPEN) (onType "") = [([], false); ([], false)].
Proof.
  destruct (configureIndentation_without_model Samples.editor_without_model)
    as (onType & options & Heq & Hitems); [reflexivity|].
  exists onType, options. split; [exact Heq|].
  destruct (Hitems "") as [Hlabels Hrun].
  injection Heq as <- _. reflexivity.
Defined.

(** X14.  On an editor whose document model is present, [setEol] makes
    exactly one [pushEOL] call on that model, and the sequence pushed is CRLF
    exactly when [lineEnding] is ['CRLF'] or ['\r\n'] (the comparison is
    case-sensitive). *)
Theorem setEol_pushes_CRLF_iff
    (editor : MonacoEditor) (model : ITextModel) (lineEnding : string) :
  modelOf editor = Some model ->
  (exists eol, setEol editor lineEnding = [PushEOL model eol]) /\
  (setEol editor lineEnding = [PushEOL model CRLF] <->
   lineEnding = "CRLF" \/ lineEnding = CR_LF).
Proof.
  intros Hmodel. unfold setEol. rewrite Hmodel.
  destruct (String.eqb_spec lineEnding "CRLF") as [H1|H1]; simpl.
  - split; [eauto|]. split; [now left | reflexivity].
  - destruct (String.eqb_spec lineEnding CR_LF) as [H2|H2].
    + split; [eauto|]. split; [now right | reflexivity].
    + split; [eauto|]. split; [discriminate | intros [H|H]; congruence].
Qed.

Lemma setEol_pushes_CRLF_iff_witness :
  setEol (Samples.editor 4) "CRLF" = [PushEOL (Samples.model 4) CRLF] /\
  setEol (Samples.editor 4) CR_LF = [PushEOL (Samples.model 4) CRLF].
Proof.
  split.
  - apply (proj2 (setEol_pushes_CRLF_iff (Samples.editor 4) (Samples.model 4) "CRLF" eq_refl)).
    now left.
  - apply (proj2 (setEol_pushes_CRLF_iff (Samples.editor 4) (Samples.model 4) CR_LF eq_refl)).
    now right.
Defined.

(** X15.  In the tab-size prompt a non-empty filter always preselects the
    first entry; the empty filter preselects an index inside the list exactly
    when the model's current tab size is between 1 and 8; when it is not, no
    entry carries the [Configured Tab Size] label. *)
Theorem tab_size_preselection_in_range_iff
    (editor : MonacoEditor) (model : ITextModel) (useSpaces : bool) :
  modelOf editor = Some model ->
  let current := tabSize (getOptions model) in
  exists onType options select,
    configureTabSize editor useSpaces = [QuickOpen onType options] /\
    selectIndex options = Some select /\
    (forall lookFor, lookFor <> "" -> select lookFor = 0) /\
    (0 <= select "" < Z.of_nat (length (onType "")) <-> 1 <= current <= 8) /\
    (~ 1 <= current <= 8 ->
     forall lookFor,
       map label (onType lookFor) = map toString [1; 2; 3; 4; 5; 6; 7; 8]).
Proof.
  intros Hmodel. cbv zeta. unfold configureTabSize. rewrite Hmodel.
  destruct model as [mid [current spaces]]. cbn [getOptions tabSize].
  eexists _, _, _. split; [reflexivity|]. split; [reflexivity|]. split; [|split].
  - intros lookFor Hne. unfold truthy_string.
    apply String.eqb_neq in Hne. now rewrite Hne.
  - cbn. lia.
  - intros Hout lookFor. cbn [map sizes seq Z.of_nat label].
    repeat match goal with
           | |- context [?a =? current] =>
               destruct (Z.eqb_spec a current) as [Heq|_]; [cbn in Heq; lia|]
           end.
    reflexivity.
Qed.

Lemma tab_size_preselection_in_range_iff_witness :
  exists onType options select,
    configureTabSize (Samples.editor 16) true = [QuickOpen onType options] /\
    selectIndex options = Some select /\
    select "8" = 0 /\ select "" = 15 /\
    map label (onType "") = ["1"; "2"; "3"; "4"; "5"; "6"; "7"; "8"].
Proof.
  destruct (tab_size_preselection_in_range_iff (Samples.editor 16) (Samples.model 16) true)
    as (onType & options & select & Heq & Hsel & Hfilter & _ & Hlabels);
    [reflexivity|].
  exists onType, options, select. split; [exact Heq|]. split; [exact Hsel|].
  split; [apply Hfilter; discriminate|]. split.
  - injection Heq as _ <-. injection Hsel as <-. reflexivity.
  - rewrite Hlabels; [reflexivity|]. simpl. lia.
Defined.

(** ** The walk up the DOM *)

(** X16.  Whether the active element counts as inside an editor is decided
    by its parent alone: an element without a parent never does, and an
    element with a parent does exactly when the parent's id is a non-empty id
    starting with [EditorWidgetFactory.ID] or the parent itself would count;
    the element's own id is never consulted. *)
Theorem activeElementIsInEditor_by_parent
    (EditorWidgetFactory_ID : string) (element : KeybindingContexts.Element) :
  let inEditor e :=
    KeybindingContexts.activeElementIsInEditor EditorWidgetFactory_ID
      {| KeybindingContexts.activeElement := Some e |} in
  inEditor element
    = match KeybindingContexts.parentElement element with
      | None => false
      | Some parent =>
          (negb (String.eqb (KeybindingContexts.id parent) "")
           && startsWith (KeybindingContexts.id parent) EditorWidgetFactory_ID)
          || inEditor parent
      end.
Proof.
  cbv zeta. unfold KeybindingContexts.activeElementIsInEditor.
  destruct element as [i [[pi pp]|]]; [|reflexivity].
  cbn [KeybindingContexts.activeElement KeybindingContexts.parentElement
       KeybindingContexts.id KeybindingContexts.searchFrom].
  unfold KeybindingContexts.isEditorId, truthy_string.
  destruct (negb (String.eqb pi "") && startsWith pi EditorWidgetFactory_ID);
    reflexivity.
Qed.

End Extras.
